(** * Story collection form: upload / submit orchestration and text scrubbing

    A shallow embedding of the two variants of the [StoryCollectionApp]
    component:

    - [src/unnamed/part_000]: images are uploaded to a remote endpoint as
      soon as they are dropped; the component keeps the returned descriptors
      ([uploadedImages]).
    - [src/src/components/StoryCollectionApp.tsx]: files are buffered
      locally ([uploadedFiles]) and converted to base64 at submission.

    Both share [sanitizeText], the per-field validation rules handed to
    [register], and the shape of [onSubmit]. *)

From Stdlib Require Import List NArith ZArith Bool Arith Lia Ascii String.
Import ListNotations.

Set Implicit Arguments.

(** ** JavaScript strings

    A JavaScript string is a sequence of UTF-16 code units; [length],
    [trim], [startsWith] and the regular expressions of the component (none
    has the [u] flag) all work on code units. *)

Definition codeunit := N.
Definition jsstring := list codeunit.

(** An ASCII literal of the source as a sequence of code units. *)
Definition lit (s : string) : jsstring :=
  map N_of_ascii (list_ascii_of_string s).

Definition cu (a : ascii) : codeunit := N_of_ascii a.

Definition jsstring_eqb (a b : jsstring) : bool :=
  if list_eq_dec N.eq_dec a b then true else false.

(** *** Character classes *)

Definition in_range (lo hi c : codeunit) : bool :=
  ((lo <=? c) && (c <=? hi))%N.

(** [WhiteSpace] and [LineTerminator] of ECMAScript: the set used both by
    [String.prototype.trim] and by the class escape [\s]. *)
Definition is_space (c : codeunit) : bool :=
  (in_range 9 13 c          (* TAB, LF, VT, FF, CR *)
   || (c =? 32) || (c =? 160) || (c =? 5760)
   || in_range 8192 8202 c  (* U+2000 .. U+200A *)
   || (c =? 8232) || (c =? 8233) || (c =? 8239) || (c =? 8287)
   || (c =? 12288) || (c =? 65279))%N.

Definition is_upper (c : codeunit) : bool := in_range 65%N 90%N c.
Definition is_lower (c : codeunit) : bool := in_range 97%N 122%N c.
Definition is_digit (c : codeunit) : bool := in_range 48%N 57%N c.
Definition is_alpha (c : codeunit) : bool := is_upper c || is_lower c.

(** [\w] without the [u] flag: [[A-Za-z0-9_]]. *)
Definition is_word (c : codeunit) : bool :=
  is_alpha c || is_digit c || (c =? 95)%N.

(** [[<>]] *)
Definition is_angle (c : codeunit) : bool := ((c =? 60) || (c =? 62))%N.

(** [Canonicalize] of a code unit under the [i] flag (no [u] flag), as far
    as the patterns of this component can observe it: a lower-case ASCII
    letter maps to its upper-case letter.  A code unit of 128 or more never
    canonicalizes to an ASCII character (step 3.e of Canonicalize), and the
    patterns below contain ASCII characters only, so leaving those code
    units in place decides every comparison made here the way the engine
    does. *)
Definition canonicalize (c : codeunit) : codeunit :=
  if is_lower c then (c - 32)%N else c.

Definition ci_eqb (p c : codeunit) : bool :=
  (canonicalize p =? canonicalize c)%N.

(** ** A backtracking matcher in continuation-passing style

    A pattern is a function that, given the matcher [k] of what follows it,
    tries to match at the start of its input and returns the number of code
    units consumed by the whole match.  Greedy quantifiers try the longest
    repetition first and fall back, as the engine does. *)

Definition matcher := jsstring -> option nat.

(** The end of a pattern: the match is complete. *)
Definition accept : matcher := fun _ => Some 0.

(** [$] (no [m] flag): only at the end of the input. *)
Definition eos : matcher :=
  fun s => match s with [] => Some 0 | _ :: _ => None end.

(** One code unit of the class [p]. *)
Definition cls (p : codeunit -> bool) (k : matcher) : matcher :=
  fun s =>
    match s with
    | c :: s' => if p c then option_map S (k s') else None
    | [] => None
    end.

(** A pattern character under the [i] flag. *)
Definition chr_ci (p : codeunit) (k : matcher) : matcher := cls (ci_eqb p) k.

(** A literal under the [i] flag. *)
Definition lit_ci (l : jsstring) (k : matcher) : matcher :=
  fold_right chr_ci k l.

(** [p*], greedy. *)
Fixpoint star (p : codeunit -> bool) (k : matcher) (s : jsstring) : option nat :=
  match s with
  | c :: s' =>
      if p c then
        match star p k s' with
        | Some n => Some (S n)
        | None => k s
        end
      else k s
  | [] => k s
  end.

(** [p+], greedy. *)
Definition plus (p : codeunit -> bool) (k : matcher) : matcher :=
  cls p (star p k).

(** [RegExp.prototype.test] for a pattern anchored with [^]. *)
Definition test (m : matcher) (s : jsstring) : bool :=
  match m s with Some _ => true | None => false end.

(** [s.replace(re, '')] for a pattern [re] with the [g] flag: the input is
    scanned from left to right; where the pattern matches [n > 0] code
    units these are dropped and the scan resumes behind them, otherwise the
    code unit is kept and the scan moves on by one.  [skip] counts the code
    units of the current match that are still to be dropped. *)
Fixpoint replace_go (m : matcher) (skip : nat) (s : jsstring) : jsstring :=
  match s with
  | [] => []
  | c :: s' =>
      match skip with
      | S n => replace_go m n s'
      | O =>
          match m s with
          | Some (S n) => replace_go m n s'
          | _ => c :: replace_go m 0 s'
          end
      end
  end.

Definition replace_all (m : matcher) (s : jsstring) : jsstring :=
  replace_go m 0 s.

(** ** String methods *)

Fixpoint trimStart (s : jsstring) : jsstring :=
  match s with
  | c :: s' => if is_space c then trimStart s' else s
  | [] => []
  end.

Definition trimEnd (s : jsstring) : jsstring := rev (trimStart (rev s)).

Definition trim (s : jsstring) : jsstring := trimEnd (trimStart s).

Fixpoint startsWith (s prefix : jsstring) : bool :=
  match prefix, s with
  | [], _ => true
  | p :: prefix', c :: s' => (p =? c)%N && startsWith s' prefix'
  | _ :: _, [] => false
  end.

(** [toLowerCase] on ASCII letters; other code units are kept.  It is only
    applied to the e-mail address, which the validation pattern restricts
    to ASCII. *)
Definition toLowerCase (s : jsstring) : jsstring :=
  map (fun c => if is_upper c then (c + 32)%N else c) s.

(** [String.prototype.includes] *)
Fixpoint includes (s sub : jsstring) : bool :=
  startsWith s sub ||
  match s with
  | [] => false
  | _ :: s' => includes s' sub
  end.

(** ** The patterns of the component *)

(** [/[<>]/g] *)
Definition re_angle : matcher := cls is_angle accept.

(** [/javascript:/gi] *)
Definition re_javascript : matcher := lit_ci (lit "javascript:") accept.

(** [/on\w+\s*=/gi] *)
Definition re_handler : matcher :=
  lit_ci (lit "on") (plus is_word (star is_space (cls (N.eqb (cu "=")) accept))).

(** [sanitizeText] (part_000 lines 40-46, StoryCollectionApp.tsx lines
    20-26; the two are the same text). *)
Definition sanitizeText (text : jsstring) : jsstring :=
  trim
    (replace_all re_handler
       (replace_all re_javascript
          (replace_all re_angle text))).

(** Somewhere in [s] the pattern [m] matches. *)
Fixpoint occurs (m : matcher) (s : jsstring) : bool :=
  test m s ||
  match s with
  | [] => false
  | _ :: s' => occurs m s'
  end.

(** ** Files, form values and validation *)

(** The fields of a browser [File] that the component reads. *)
Record File := mkFile {
  file_name : jsstring;
  file_type : jsstring;
  file_size : N }.

(** [file.type.startsWith('image/')] *)
Definition isImageFile (file : File) : bool :=
  startsWith (file_type file) (lit "image/").

(** [files.filter(file => file.type.startsWith('image/'))] *)
Definition imageFilesOf (files : list File) : list File :=
  filter isImageFile files.

(** [arr.filter((_, i) => i !== index)]: [index] is a JavaScript number;
    integers are enough to tell the positions of an array apart from
    everything else. *)
Fixpoint filter_index_from (A : Type) (i : nat) (index : Z) (l : list A) : list A :=
  match l with
  | [] => []
  | x :: l' =>
      if (Z.of_nat i =? index)%Z
      then filter_index_from (S i) index l'
      else x :: filter_index_from (S i) index l'
  end.

Definition filter_index (A : Type) (index : Z) (l : list A) : list A :=
  filter_index_from 0 index l.

(** The values held by the form ([FormData]); [images] is optional and
    absent ([undefined]) until [setValue('images', ...)] is called.  A text
    field that was never typed into reads as the empty string. *)
Record FormValues (A : Type) := mkForm {
  name : jsstring;
  email : jsstring;
  story : jsstring;
  images : option (list A) }.

(** The form after [reset()]: [useForm] is called without default values. *)
Definition blankForm (A : Type) : FormValues A :=
  {| name := []; email := []; story := []; images := None |}.

(** [setValue('images', v)] *)
Definition setValue_images (A : Type) (v : list A) (f : FormValues A) : FormValues A :=
  {| name := name f; email := email f; story := story f; images := Some v |}.

(** The form value under 'images' read as a list: no value, no image. *)
Definition imagesValue (A : Type) (f : FormValues A) : list A :=
  match images f with
  | Some l => l
  | None => []
  end.

(** The options of [register]: a rule is a bound (or a pattern) with its
    message. *)
Record Rules := mkRules {
  required : option jsstring;
  minLength : option (N * jsstring);
  maxLength : option (N * jsstring);
  pattern : option (matcher * jsstring) }.

Definition exceeds_max (r : Rules) (v : jsstring) : bool :=
  match maxLength r with
  | Some (n, _) => (n <? N.of_nat (List.length v))%N
  | None => false
  end.

Definition exceeds_min (r : Rules) (v : jsstring) : bool :=
  match minLength r with
  | Some (n, _) => (N.of_nat (List.length v) <? n)%N
  | None => false
  end.

Definition rule_message (o : option (N * jsstring)) : jsstring :=
  match o with
  | Some (_, msg) => msg
  | None => []
  end.

(** The check react-hook-form runs on a text field at a submit attempt
    (its [validateField], for the options used here): [required] fails on
    the empty string; the length rules and the pattern are checked on
    non-empty values only; the first failing rule gives the message. *)
Definition validateField (r : Rules) (v : jsstring) : option jsstring :=
  match v with
  | [] =>
      match required r with
      | Some msg => Some msg
      | None => None
      end
  | _ :: _ =>
      if exceeds_max r v then Some (rule_message (maxLength r))
      else if exceeds_min r v then Some (rule_message (minLength r))
      else
        match pattern r with
        | Some (re, msg) => if test re v then None else Some msg
        | None => None
        end
  end.

(** [/^[A-Z0-9._%+-]+@[A-Z0-9.-]+\.[A-Z]{2,}$/i] *)
Definition is_local (c : codeunit) : bool :=
  is_alpha c || is_digit c
  || (c =? cu ".")%N || (c =? cu "_")%N || (c =? cu "%")%N
  || (c =? cu "+")%N || (c =? cu "-")%N.

Definition is_domain (c : codeunit) : bool :=
  is_alpha c || is_digit c || (c =? cu ".")%N || (c =? cu "-")%N.

Definition re_email : matcher :=
  plus is_local
    (cls (N.eqb (cu "@"))
       (plus is_domain
          (cls (N.eqb (cu "."))
             (cls is_alpha (plus is_alpha eos))))).

Definition rules_name : Rules :=
  {| required := Some (lit "Name is required");
     minLength := Some (2%N, lit "Name must be at least 2 characters");
     maxLength := Some (100%N, lit "Name must be less than 100 characters");
     pattern := None |}.

Definition rules_email : Rules :=
  {| required := Some (lit "Email is required");
     minLength := None;
     maxLength := None;
     pattern := Some (re_email, lit "Please enter a valid email address") |}.

Definition rules_story : Rules :=
  {| required := Some (lit "Story is required");
     minLength := Some (10%N, lit "Story must be at least 10 characters");
     maxLength := Some (5000%N, lit "Story must be less than 5000 characters");
     pattern := None |}.

(** [formState.errors] for the three registered fields. *)
Record Errors := mkErrors {
  err_name : option jsstring;
  err_email : option jsstring;
  err_story : option jsstring }.

Definition noErrors : Errors :=
  {| err_name := None; err_email := None; err_story := None |}.

Definition validate (A : Type) (f : FormValues A) : Errors :=
  {| err_name := validateField rules_name (name f);
     err_email := validateField rules_email (email f);
     err_story := validateField rules_story (story f) |}.

Definition isValid (e : Errors) : bool :=
  match err_name e, err_email e, err_story e with
  | None, None, None => true
  | _, _, _ => false
  end.

(** The body of the submission request. *)
Record Payload (A : Type) := mkPayload {
  p_name : jsstring;
  p_email : jsstring;
  p_story : jsstring;
  p_images : list A;
  p_submittedAt : jsstring }.

(** What the submission [fetch] and the reading of its body come to. *)
Inductive SubmitResponse :=
| SubmitNetworkError                       (* [fetch] rejects *)
| SubmitHttp (ok : bool) (json : bool).    (* [response.ok]; [response.json()] resolves *)

Definition msg_success : jsstring :=
  lit "Story submitted successfully! Thank you for sharing.".
Definition msg_submit_error : jsstring :=
  lit "Error submitting story. Please try again.".
Definition msg_upload_error : jsstring :=
  lit "Error uploading images. Please try again.".

(** The labels of the [console.error] calls. *)
Definition log_submission : jsstring := lit "Submission error:".
Definition log_upload_image : jsstring := lit "Error uploading image:".
Definition log_upload_images : jsstring := lit "Error uploading images:".

Inductive FieldName := FName | FEmail | FStory.

(** A keystroke in a registered text field. *)
Definition setField (A : Type) (fld : FieldName) (v : jsstring) (f : FormValues A) : FormValues A :=
  match fld with
  | FName => {| name := v; email := email f; story := story f; images := images f |}
  | FEmail => {| name := name f; email := v; story := story f; images := images f |}
  | FStory => {| name := name f; email := email f; story := v; images := images f |}
  end.

(** [results.filter(result => result !== null)] *)
Fixpoint non_null (A : Type) (l : list (option A)) : list A :=
  match l with
  | [] => []
  | Some a :: l' => a :: non_null l'
  | None :: l' => non_null l'
  end.

(** The array without its [k]-th element. *)
Fixpoint remove_nth (A : Type) (k : nat) (l : list A) : list A :=
  match k, l with
  | _, [] => []
  | O, _ :: l' => l'
  | S k', x :: l' => x :: remove_nth k' l'
  end.

(** ** The variant that uploads on drop ([src/unnamed/part_000]) *)

Module UploadVariant.

(** [interface UploadedImage] *)
Record UploadedImage := mkImage {
  id : jsstring;
  url : jsstring;
  filename : jsstring;
  variants_public : jsstring;
  variants_thumbnail : option jsstring }.

(** An entry of [uploadedImages]: a value that [uploadImageToCloudflare]
    returned and that is not [null].  [result.image] is [undefined] when the
    answer carries no [image]. *)
Inductive Slot :=
| undefined
| descriptor (i : UploadedImage).

(** What [result.image] reads from the JSON answer: [undefined] when the
    answer has no [image], [null], or the descriptor. *)
Inductive ImageField :=
| absent
| null
| object (i : UploadedImage).

(** The JSON answer of the upload endpoint:
    [{ success: boolean, image?: {...}, error?: string }]. *)
Record UploadJson := mkUploadJson {
  success : bool;
  image : ImageField;
  error : option jsstring }.

(** What one upload [fetch] and the reading of its body come to. *)
Inductive UploadResponse :=
| UploadNetworkError                                  (* [fetch] rejects *)
| UploadHttp (ok : bool) (body : option UploadJson).  (* [None]: [response.json()] rejects *)

Inductive Request :=
| PostUploadImage (file : File)
| PostSubmitStory (body : Payload Slot).

(** The component: its [useState] cells, the form of [useForm], and the
    trace of its effects ([console.error] calls and [fetch] requests, oldest
    first). *)
Record State := mkState {
  isSubmitting : bool;
  submitMessage : jsstring;
  dragActive : bool;
  uploadedImages : list Slot;
  uploadingImages : bool;
  formValues : FormValues Slot;
  errors : Errors;
  console : list jsstring;
  requests : list Request }.

Definition initial : State :=
  {| isSubmitting := false; submitMessage := []; dragActive := false;
     uploadedImages := []; uploadingImages := false;
     formValues := blankForm Slot; errors := noErrors;
     console := []; requests := [] |}.

Definition setIsSubmitting (v : bool) (s : State) : State :=
  mkState v (submitMessage s) (dragActive s) (uploadedImages s)
    (uploadingImages s) (formValues s) (errors s) (console s) (requests s).

Definition setSubmitMessage (v : jsstring) (s : State) : State :=
  mkState (isSubmitting s) v (dragActive s) (uploadedImages s)
    (uploadingImages s) (formValues s) (errors s) (console s) (requests s).

Definition setDragActive (v : bool) (s : State) : State :=
  mkState (isSubmitting s) (submitMessage s) v (uploadedImages s)
    (uploadingImages s) (formValues s) (errors s) (console s) (requests s).

(** [setUploadedImages(prev => f prev)]; [setUploadedImages(v)] is the
    constant function. *)
Definition setUploadedImages (f : list Slot -> list Slot) (s : State) : State :=
  mkState (isSubmitting s) (submitMessage s) (dragActive s) (f (uploadedImages s))
    (uploadingImages s) (formValues s) (errors s) (console s) (requests s).

Definition setUploadingImages (v : bool) (s : State) : State :=
  mkState (isSubmitting s) (submitMessage s) (dragActive s) (uploadedImages s)
    v (formValues s) (errors s) (console s) (requests s).

Definition setFormValues (v : FormValues Slot) (s : State) : State :=
  mkState (isSubmitting s) (submitMessage s) (dragActive s) (uploadedImages s)
    (uploadingImages s) v (errors s) (console s) (requests s).

Definition setErrors (v : Errors) (s : State) : State :=
  mkState (isSubmitting s) (submitMessage s) (dragActive s) (uploadedImages s)
    (uploadingImages s) (formValues s) v (console s) (requests s).

Definition console_error (l : list jsstring) (s : State) : State :=
  mkState (isSubmitting s) (submitMessage s) (dragActive s) (uploadedImages s)
    (uploadingImages s) (formValues s) (errors s) (console s ++ l) (requests s).

Definition fetch (l : list Request) (s : State) : State :=
  mkState (isSubmitting s) (submitMessage s) (dragActive s) (uploadedImages s)
    (uploadingImages s) (formValues s) (errors s) (console s) (requests s ++ l).

(** [setValue('images', v)] *)
Definition setValue (v : list Slot) (s : State) : State :=
  setFormValues (setValue_images v (formValues s)) s.

(** [reset()]: react-hook-form goes back to the default values (there are
    none) and clears the errors; the inputs sit in a [<form>], whose own
    reset empties them. *)
Definition reset (s : State) : State :=
  setErrors noErrors (setFormValues (blankForm Slot) s).

(** [uploadImageToCloudflare] (lines 78-102) from the answer to its
    request on: the value the promise resolves to ([None] is [null]) and
    what the [catch] logs.  Every [throw] of the body is caught, so the
    promise never rejects. *)
Definition uploadImageToCloudflare (r : UploadResponse) : option Slot * list jsstring :=
  match r with
  | UploadNetworkError => (None, [log_upload_image])
  | UploadHttp false _ => (None, [log_upload_image])
  | UploadHttp true None => (None, [log_upload_image])
  | UploadHttp true (Some result) =>
      if success result
      then (match image result with
            | object i => Some (descriptor i)
            | absent => Some undefined
            | null => None
            end, [])
      else (None, [log_upload_image])
  end.

(** A handler that is waiting at an [await].  An upload batch keeps the
    [uploadedImages] of the render in which [handleFiles] was called (the
    variable the closure captured) and the files it sent. *)
Inductive Task :=
| UploadTask (captured : list Slot) (imageFiles : list File)
| SubmitTask.

(** [handleFiles] up to [await Promise.all(uploadPromises)] (lines 57-63):
    every upload has sent its request by then. *)
Definition handleFiles_start (files : list File) (s : State) : State * option Task :=
  let imageFiles := imageFilesOf files in
  match imageFiles with
  | [] => (s, None)
  | _ :: _ =>
      (fetch (map PostUploadImage imageFiles) (setUploadingImages true s),
       Some (UploadTask (uploadedImages s) imageFiles))
  end.

(** [handleFiles] from the [await] on (lines 63-74), with the answers to
    the uploads in the order of the files.  No upload promise rejects, so
    the [catch] of [handleFiles] is not entered. *)
Definition handleFiles_resume (captured : list Slot) (answers : list UploadResponse)
    (s : State) : State :=
  let uploadedImageResults := map uploadImageToCloudflare answers in
  let successfulUploads := non_null (map fst uploadedImageResults) in
  setUploadingImages false
    (setValue (captured ++ successfulUploads)
       (setUploadedImages (fun prev => prev ++ successfulUploads)
          (console_error (List.concat (map snd uploadedImageResults)) s))).

(** [handleFiles] when nothing else happens while the uploads run. *)
Definition handleFiles (files : list File) (answers : list UploadResponse)
    (s : State) : State :=
  match handleFiles_start files s with
  | (s', Some (UploadTask captured _)) => handleFiles_resume captured answers s'
  | (s', _) => s'
  end.

(** [handleDrop] *)
Definition handleDrop (files : list File) (s : State) : State * option Task :=
  handleFiles_start files (setDragActive false s).

(** [removeImage] (lines 104-108) *)
Definition removeImage (index : Z) (s : State) : State :=
  let newImages := filter_index index (uploadedImages s) in
  setValue newImages (setUploadedImages (fun _ => newImages) s).

Definition sanitizedPayload (data : FormValues Slot) (imgs : list Slot)
    (now : jsstring) : Payload Slot :=
  {| p_name := sanitizeText (name data);
     p_email := toLowerCase (trim (email data));
     p_story := sanitizeText (story data);
     p_images := imgs;
     p_submittedAt := now |}.

(** [onSubmit] up to [await fetch(...)] (lines 119-142); [now] is
    [new Date().toISOString()]. *)
Definition onSubmit_start (data : FormValues Slot) (now : jsstring) (s : State) : State :=
  fetch [PostSubmitStory (sanitizedPayload data (uploadedImages s) now)]
    (setSubmitMessage [] (setIsSubmitting true s)).

(** [onSubmit] from the answer on (lines 144-157). *)
Definition onSubmit_resume (r : SubmitResponse) (s : State) : State :=
  setIsSubmitting false
    match r with
    | SubmitHttp true true =>
        setUploadedImages (fun _ => []) (reset (setSubmitMessage msg_success s))
    | _ =>
        console_error [log_submission] (setSubmitMessage msg_submit_error s)
    end.

(** [onSubmit] when nothing else happens while the request runs. *)
Definition onSubmit (data : FormValues Slot) (now : jsstring) (r : SubmitResponse)
    (s : State) : State :=
  onSubmit_resume r (onSubmit_start data now s).

(** [handleSubmit(onSubmit)]: the registered fields are validated; the
    handler runs on the form values only when no rule fails. *)
Definition handleSubmit (now : jsstring) (s : State) : State * option Task :=
  let e := validate (formValues s) in
  if isValid e
  then (onSubmit_start (formValues s) now (setErrors noErrors s), Some SubmitTask)
  else (setErrors e s, None).

(** A press of the submit button (lines 186, 217-228 and 352-358).  The
    button is disabled while [isSubmitting || uploadingImages].  It submits
    the [<form>], which has no [noValidate]: the browser first checks the
    [type="email"] input by its own rule and fires no submit event when it
    refuses the address; otherwise [handleSubmit(onSubmit)] runs.  The
    browser's rule is no part of the repository: it is the parameter
    [browser_accepts]. *)
Definition pressSubmit (browser_accepts : jsstring -> bool) (now : jsstring)
    (s : State) : State * option Task :=
  if isSubmitting s || uploadingImages s then (s, None)
  else if browser_accepts (email (formValues s)) then handleSubmit now s
  else (s, None).

(** *** The event loop *)

Record World := mkWorld {
  component : State;
  pending : list Task }.

Definition start : World := {| component := initial; pending := [] |}.

Inductive Event :=
| Input (fld : FieldName) (v : jsstring)
| Drop (files : list File)
| UploadsSettled (k : nat) (answers : list UploadResponse)
| Remove (index : Z)
| Submit (now : jsstring)
| SubmitSettled (k : nat) (r : SubmitResponse)
| Dismiss (submitted : option jsstring).

Definition spawn (w : World) (r : State * option Task) : World :=
  {| component := fst r;
     pending := match snd r with
                | Some t => pending w ++ [t]
                | None => pending w
                end |}.

(** One turn of the event loop.  [Submit] is the submit event of the form
    that a press of the submit button fires once the browser's own check
    has passed (see [pressSubmit]); the button is disabled while
    [isSubmitting || uploadingImages].  An answer is delivered to a handler
    that waits for it, one answer per file of the batch.  [Dismiss] is a
    click on the delete button of the notification (lines 365-368), which
    is rendered only while [submitMessage] is not empty: the message is
    cleared, and since the button has no [type] and sits in the [<form>]
    the click submits the form as well: [submitted] is [Some now] when the
    submit event reaches [handleSubmit] and [None] when the browser
    refuses the address. *)
Definition step (w : World) (e : Event) : World :=
  let s := component w in
  match e with
  | Input fld v =>
      {| component := setFormValues (setField fld v (formValues s)) s;
         pending := pending w |}
  | Drop files => spawn w (handleDrop files s)
  | Remove index =>
      {| component := removeImage index s; pending := pending w |}
  | Submit now =>
      if isSubmitting s || uploadingImages s then w
      else spawn w (handleSubmit now s)
  | UploadsSettled k answers =>
      match nth_error (pending w) k with
      | Some (UploadTask captured imageFiles) =>
          if List.length answers =? List.length imageFiles
          then {| component := handleFiles_resume captured answers s;
                  pending := remove_nth k (pending w) |}
          else w
      | _ => w
      end
  | SubmitSettled k r =>
      match nth_error (pending w) k with
      | Some SubmitTask =>
          {| component := onSubmit_resume r s;
             pending := remove_nth k (pending w) |}
      | _ => w
      end
  | Dismiss submitted =>
      match submitMessage s with
      | [] => w
      | _ :: _ =>
          match submitted with
          | Some now => spawn w (handleSubmit now (setSubmitMessage [] s))
          | None => {| component := setSubmitMessage [] s; pending := pending w |}
          end
      end
  end.

Definition run (w : World) (es : list Event) : World := fold_left step es w.

Definition reachable (w : World) : Prop := exists es, run start es = w.

(** The attachment list and the form value under 'images' hold the same
    list. *)
Definition in_sync (s : State) : Prop :=
  imagesValue (formValues s) = uploadedImages s.

End UploadVariant.

(** [Promise.all]: the values of all, or a rejection as soon as one
    rejects. *)
Fixpoint promise_all (A : Type) (l : list (option A)) : option (list A) :=
  match l with
  | [] => Some []
  | None :: _ => None
  | Some a :: l' =>
      match promise_all l' with
      | Some r => Some (a :: r)
      | None => None
      end
  end.

(** ** The variant that buffers files
    ([src/src/components/StoryCollectionApp.tsx]) *)

Module Base64Variant.

(** An element of the [images] array of the request. *)
Record ImageData := mkImageData {
  img_name : jsstring;
  img_type : jsstring;
  img_size : N;
  img_data : jsstring }.

Inductive Request :=
| PostSubmitStory (body : Payload ImageData).

Record State := mkState {
  isSubmitting : bool;
  submitMessage : jsstring;
  dragActive : bool;
  uploadedFiles : list File;
  formValues : FormValues File;
  errors : Errors;
  console : list jsstring;
  requests : list Request }.

Definition initial : State :=
  {| isSubmitting := false; submitMessage := []; dragActive := false;
     uploadedFiles := []; formValues := blankForm File; errors := noErrors;
     console := []; requests := [] |}.

Definition setIsSubmitting (v : bool) (s : State) : State :=
  mkState v (submitMessage s) (dragActive s) (uploadedFiles s)
    (formValues s) (errors s) (console s) (requests s).

Definition setSubmitMessage (v : jsstring) (s : State) : State :=
  mkState (isSubmitting s) v (dragActive s) (uploadedFiles s)
    (formValues s) (errors s) (console s) (requests s).

Definition setDragActive (v : bool) (s : State) : State :=
  mkState (isSubmitting s) (submitMessage s) v (uploadedFiles s)
    (formValues s) (errors s) (console s) (requests s).

Definition setUploadedFiles (f : list File -> list File) (s : State) : State :=
  mkState (isSubmitting s) (submitMessage s) (dragActive s) (f (uploadedFiles s))
    (formValues s) (errors s) (console s) (requests s).

Definition setFormValues (v : FormValues File) (s : State) : State :=
  mkState (isSubmitting s) (submitMessage s) (dragActive s) (uploadedFiles s)
    v (errors s) (console s) (requests s).

Definition setErrors (v : Errors) (s : State) : State :=
  mkState (isSubmitting s) (submitMessage s) (dragActive s) (uploadedFiles s)
    (formValues s) v (console s) (requests s).

Definition console_error (l : list jsstring) (s : State) : State :=
  mkState (isSubmitting s) (submitMessage s) (dragActive s) (uploadedFiles s)
    (formValues s) (errors s) (console s ++ l) (requests s).

Definition fetch (l : list Request) (s : State) : State :=
  mkState (isSubmitting s) (submitMessage s) (dragActive s) (uploadedFiles s)
    (formValues s) (errors s) (console s) (requests s ++ l).

Definition setValue (v : list File) (s : State) : State :=
  setFormValues (setValue_images v (formValues s)) s.

(** [reset()]: react-hook-form goes back to the default values (there are
    none) and clears the errors.  The three text inputs are not controlled
    and this page has no [<form>] whose own reset would empty them: they
    keep what was typed and are registered again with it, so only the
    value under 'images' is gone. *)
Definition reset (s : State) : State :=
  setErrors noErrors
    (setFormValues
       {| name := name (formValues s); email := email (formValues s);
          story := story (formValues s); images := None |} s).

(** [handleFiles] (lines 37-43) *)
Definition handleFiles (files : list File) (s : State) : State :=
  let imageFiles := imageFilesOf files in
  match imageFiles with
  | [] => s
  | _ :: _ =>
      setValue (uploadedFiles s ++ imageFiles)
        (setUploadedFiles (fun prev => prev ++ imageFiles) s)
  end.

(** [handleDrop] *)
Definition handleDrop (files : list File) (s : State) : State :=
  handleFiles files (setDragActive false s).

(** [removeFile] (lines 45-49) *)
Definition removeFile (index : Z) (s : State) : State :=
  let newFiles := filter_index index (uploadedFiles s) in
  setValue newFiles (setUploadedFiles (fun _ => newFiles) s).

(** [convertToBase64] against what the [FileReader] does with each file:
    a data URL ([onload]) or a failure ([onerror], the promise rejects). *)
Definition convertToBase64 (reader : File -> option jsstring) (file : File) : option jsstring :=
  reader file.

(** [Promise.all(uploadedFiles.map(async file => ...))] (lines 75-84) *)
Definition imageDataOf (reader : File -> option jsstring) (files : list File)
    : option (list ImageData) :=
  promise_all
    (map (fun file =>
            option_map (mkImageData (file_name file) (file_type file) (file_size file))
              (convertToBase64 reader file))
       files).

Inductive Task :=
| ReadTask (data : FormValues File) (captured : list File)  (* at [await Promise.all] *)
| FetchTask.                                               (* at [await fetch] *)

Definition sanitizedPayload (data : FormValues File) (imageData : list ImageData)
    (now : jsstring) : Payload ImageData :=
  {| p_name := sanitizeText (name data);
     p_email := toLowerCase (trim (email data));
     p_story := sanitizeText (story data);
     p_images := imageData;
     p_submittedAt := now |}.

(** The [catch] and [finally] of [onSubmit] (lines 108-113). *)
Definition onSubmit_catch (s : State) : State :=
  setIsSubmitting false
    (console_error [log_submission] (setSubmitMessage msg_submit_error s)).

(** [onSubmit] up to its first [await] (lines 60-98): the reading of the
    files when there are some, the request otherwise. *)
Definition onSubmit_start (data : FormValues File) (now : jsstring) (s : State)
    : State * option Task :=
  let s1 := setSubmitMessage [] (setIsSubmitting true s) in
  match uploadedFiles s with
  | [] => (fetch [PostSubmitStory (sanitizedPayload data [] now)] s1, Some FetchTask)
  | _ :: _ => (s1, Some (ReadTask data (uploadedFiles s)))
  end.

(** ... from the end of the reading to the request (lines 84-98). *)
Definition onSubmit_read (data : FormValues File) (captured : list File)
    (reader : File -> option jsstring) (now : jsstring) (s : State)
    : State * option Task :=
  match imageDataOf reader captured with
  | Some imageData =>
      (fetch [PostSubmitStory (sanitizedPayload data imageData now)] s, Some FetchTask)
  | None => (onSubmit_catch s, None)
  end.

(** ... from the answer on (lines 100-113). *)
Definition onSubmit_resume (r : SubmitResponse) (s : State) : State :=
  match r with
  | SubmitHttp true true =>
      setIsSubmitting false
        (setUploadedFiles (fun _ => []) (reset (setSubmitMessage msg_success s)))
  | _ => onSubmit_catch s
  end.

(** [onSubmit] when nothing else happens while it waits. *)
Definition onSubmit (data : FormValues File) (now : jsstring)
    (reader : File -> option jsstring) (r : SubmitResponse) (s : State) : State :=
  match onSubmit_start data now s with
  | (s1, Some (ReadTask d captured)) =>
      match onSubmit_read d captured reader now s1 with
      | (s2, Some _) => onSubmit_resume r s2
      | (s2, None) => s2
      end
  | (s1, _) => onSubmit_resume r s1
  end.

(** [handleSubmit(onSubmit)] *)
Definition handleSubmit (now : jsstring) (s : State) : State * option Task :=
  let e := validate (formValues s) in
  if isValid e
  then onSubmit_start (formValues s) now (setErrors noErrors s)
  else (setErrors e s, None).

(** *** The event loop *)

Record World := mkWorld {
  component : State;
  pending : list Task }.

Definition start : World := {| component := initial; pending := [] |}.

Inductive Event :=
| Input (fld : FieldName) (v : jsstring)
| Drop (files : list File)
| Remove (index : Z)
| Submit (now : jsstring)
| ReadsSettled (k : nat) (reader : File -> option jsstring) (now : jsstring)
| SubmitSettled (k : nat) (r : SubmitResponse)
| Dismiss.

Definition spawn (l : list Task) (r : State * option Task) : World :=
  {| component := fst r;
     pending := match snd r with
                | Some t => l ++ [t]
                | None => l
                end |}.

(** One turn of the event loop.  The submit button is disabled while
    [isSubmitting]; it is a [type="button"] outside any form, so a press
    runs [handleSubmit(onSubmit)] directly.  [Dismiss] is a click on the
    delete button of the notification (lines 301-304), which only clears
    the message. *)
Definition step (w : World) (e : Event) : World :=
  let s := component w in
  match e with
  | Input fld v =>
      {| component := setFormValues (setField fld v (formValues s)) s;
         pending := pending w |}
  | Drop files =>
      {| component := handleDrop files s; pending := pending w |}
  | Remove index =>
      {| component := removeFile index s; pending := pending w |}
  | Submit now =>
      if isSubmitting s then w
      else spawn (pending w) (handleSubmit now s)
  | ReadsSettled k reader now =>
      match nth_error (pending w) k with
      | Some (ReadTask data captured) =>
          spawn (remove_nth k (pending w)) (onSubmit_read data captured reader now s)
      | _ => w
      end
  | SubmitSettled k r =>
      match nth_error (pending w) k with
      | Some FetchTask =>
          {| component := onSubmit_resume r s;
             pending := remove_nth k (pending w) |}
      | _ => w
      end
  | Dismiss =>
      {| component := setSubmitMessage [] s; pending := pending w |}
  end.

Definition run (w : World) (es : list Event) : World := fold_left step es w.

Definition reachable (w : World) : Prop := exists es, run start es = w.

Definition in_sync (s : State) : Prop :=
  imagesValue (formValues s) = uploadedFiles s.

End Base64Variant.

(** ** Predicates used to state the properties *)

Definition starts_with_space (s : jsstring) : bool :=
  match s with
  | c :: _ => is_space c
  | [] => false
  end.

Definition ends_with_space (s : jsstring) : bool := starts_with_space (rev s).

Definition has_angle (s : jsstring) : bool := existsb is_angle s.

Definition no_angle (s : jsstring) : Prop := Forall (fun c => is_angle c = false) s.

(** An upload that the endpoint answered with an ok status and
    [{success: true, ...}] whose [image] is not [null]: the upload hands a
    value on to the attachment list. *)
Definition succeeded (r : UploadVariant.UploadResponse) : bool :=
  match r with
  | UploadVariant.UploadHttp true (Some result) =>
      UploadVariant.success result
      && match UploadVariant.image result with
         | UploadVariant.null => false
         | _ => true
         end
  | _ => false
  end.

(** What a successful upload adds to the attachment list. *)
Definition returned (r : UploadVariant.UploadResponse) : UploadVariant.Slot :=
  match r with
  | UploadVariant.UploadHttp _ (Some result) =>
      match UploadVariant.image result with
      | UploadVariant.object i => UploadVariant.descriptor i
      | _ => UploadVariant.undefined
      end
  | _ => UploadVariant.undefined
  end.

(** An upload that threw into the [catch] of [uploadImageToCloudflare]:
    no answer, a non-ok status, a body that is not JSON or
    [{success: false}]. *)
Definition upload_failed (r : UploadVariant.UploadResponse) : bool :=
  match r with
  | UploadVariant.UploadHttp true (Some result) => negb (UploadVariant.success result)
  | _ => true
  end.

(** An upload answered with [{success: true, image: null}]. *)
Definition upload_null (r : UploadVariant.UploadResponse) : bool :=
  match r with
  | UploadVariant.UploadHttp true (Some result) =>
      UploadVariant.success result
      && match UploadVariant.image result with
         | UploadVariant.null => true
         | _ => false
         end
  | _ => false
  end.

(** A submission that failed: no answer, or an answer with a non-success
    status. *)
Definition submission_failed (r : SubmitResponse) : bool :=
  match r with
  | SubmitNetworkError => true
  | SubmitHttp ok _ => negb ok
  end.

(** ** Sample data *)

Definition png (n : string) : File :=
  {| file_name := lit n; file_type := lit "image/png"; file_size := 1024 |}.

Definition pdf (n : string) : File :=
  {| file_name := lit n; file_type := lit "application/pdf"; file_size := 2048 |}.

Definition image_of (n : string) : UploadVariant.UploadedImage :=
  {| UploadVariant.id := lit n;
     UploadVariant.url := lit "https://imagedelivery.net/" ++ lit n;
     UploadVariant.filename := lit n;
     UploadVariant.variants_public := lit "public";
     UploadVariant.variants_thumbnail := None |}.

Definition upload_ok (n : string) : UploadVariant.UploadResponse :=
  UploadVariant.UploadHttp true
    (Some {| UploadVariant.success := true;
             UploadVariant.image := UploadVariant.object (image_of n);
             UploadVariant.error := None |}).

Definition upload_refused : UploadVariant.UploadResponse :=
  UploadVariant.UploadHttp true
    (Some {| UploadVariant.success := false;
             UploadVariant.image := UploadVariant.absent;
             UploadVariant.error := Some (lit "too large") |}).

Definition sample_form (A : Type) (n : string) : FormValues A :=
  {| name := lit n;
     email := lit "ada@example.org";
     story := lit "A story of ten characters or more.";
     images := None |}.

(** Text in which a pattern is nested inside another occurrence of
    itself. *)
Definition nested_javascript : jsstring := lit "javajavascript:script:alert(1)".
Definition nested_handler : jsstring := lit "oonx=nclick=alert(1)".

Definition hostile_form (A : Type) : FormValues A :=
  {| name := nested_handler;
     email := lit "ada@example.org";
     story := nested_javascript;
     images := None |}.

Definition sample_now : jsstring := lit "2024-01-01T00:00:00.000Z".

(** A second image is dropped while the upload of the first is still
    running; then both uploads are answered. *)
Definition overlapping_drops : list UploadVariant.Event :=
  [ UploadVariant.Drop [png "a.png"];
    UploadVariant.Drop [png "b.png"];
    UploadVariant.UploadsSettled 0 [upload_ok "a"];
    UploadVariant.UploadsSettled 0 [upload_ok "b"] ].

(** An image is removed while the upload of another is still running. *)
Definition remove_during_upload : list UploadVariant.Event :=
  [ UploadVariant.Drop [png "a.png"];
    UploadVariant.UploadsSettled 0 [upload_ok "a"];
    UploadVariant.Drop [png "b.png"];
    UploadVariant.Remove 0;
    UploadVariant.UploadsSettled 0 [upload_ok "b"] ].

(** The component with a filled form and one uploaded image. *)
Definition filled (n : string) : UploadVariant.State :=
  UploadVariant.setValue [UploadVariant.descriptor (image_of "a")]
    (UploadVariant.setUploadedImages
       (fun _ => [UploadVariant.descriptor (image_of "a")])
       (UploadVariant.setFormValues (sample_form UploadVariant.Slot n)
          UploadVariant.initial)).

Definition filled_base64 (n : string) : Base64Variant.State :=
  Base64Variant.setValue [png "a.png"]
    (Base64Variant.setUploadedFiles (fun _ => [png "a.png"])
       (Base64Variant.setFormValues (sample_form File n) Base64Variant.initial)).

(** ** Notions for the properties of the remaining code *)

(** [l] is [l'] with some elements left out, the others in their order. *)
Inductive subsequence (A : Type) : list A -> list A -> Prop :=
| sub_nil : subsequence [] []
| sub_keep x l l' : subsequence l l' -> subsequence (x :: l) (x :: l')
| sub_drop x l l' : subsequence l l' -> subsequence l (x :: l').

(** An address of the shape [local@domain.tld] that the pattern of the
    e-mail field describes: a non-empty local part, a non-empty domain, a
    dot and two letters or more. *)
Definition address_shape (v : jsstring) : Prop :=
  exists local domain tld,
    v = local ++ cu "@" :: domain ++ cu "." :: tld
    /\ local <> [] /\ forallb is_local local = true
    /\ domain <> [] /\ forallb is_domain domain = true
    /\ 2 <= List.length tld /\ forallb is_alpha tld = true.

(** [data.email.trim().toLowerCase()] *)
Definition normalizeEmail (v : jsstring) : jsstring := toLowerCase (trim v).

(** A text of [n] letters [a]. *)
Definition letters (n : nat) : jsstring := repeat (cu "a") n.

(** A text of [n] blanks. *)
Definition blanks (n : nat) : jsstring := repeat (cu " ") n.

(** A form with a name, an address and a story of blanks only. *)
Definition blank_story_form (A : Type) (n : nat) : FormValues A :=
  {| name := lit "Ada";
     email := lit "ada@example.org";
     story := blanks n;
     images := None |}.

(** A reader that fails on empty files and gives every other file the
    same data URL. *)
Definition sample_reader (file : File) : option jsstring :=
  if (file_size file =? 0)%N then None
  else Some (lit "data:image/png;base64,AAAA").

Definition empty_png : File :=
  {| file_name := lit "empty.png"; file_type := lit "image/png"; file_size := 0 |}.

(** Typing, dropping three files of which one is no image, removing one
    and a submission that is answered with success, then one more drop. *)
Definition buffering_session : list Base64Variant.Event :=
  [ Base64Variant.Input FName (lit "Ada");
    Base64Variant.Input FEmail (lit "ada@example.org");
    Base64Variant.Input FStory (lit "A story of ten characters or more.");
    Base64Variant.Drop [png "a.png"; pdf "notes.pdf"; png "b.png"];
    Base64Variant.Remove 0;
    Base64Variant.Submit sample_now;
    Base64Variant.ReadsSettled 0 sample_reader sample_now;
    Base64Variant.SubmitSettled 0 (SubmitHttp true true);
    Base64Variant.Drop [png "c.png"] ].

(** *** What is rendered from the state *)

(** The submit button: whether it is disabled and what it reads. *)
Record Button := mkButton {
  btn_disabled : bool;
  btn_label : jsstring }.

(** part_000 lines 352-358 *)
Definition upload_submitButton (s : UploadVariant.State) : Button :=
  {| btn_disabled := UploadVariant.isSubmitting s || UploadVariant.uploadingImages s;
     btn_label :=
       if UploadVariant.isSubmitting s then lit "Submitting..."
       else if UploadVariant.uploadingImages s then lit "Uploading Images..."
       else lit "Submit Story" |}.

(** StoryCollectionApp.tsx lines 286-293 *)
Definition base64_submitButton (s : Base64Variant.State) : Button :=
  {| btn_disabled := Base64Variant.isSubmitting s;
     btn_label :=
       if Base64Variant.isSubmitting s then lit "Submitting..."
       else lit "Submit Story" |}.

Inductive NotificationClass := is_danger | is_success.

(** The notification (part_000 lines 362-371, StoryCollectionApp.tsx lines
    298-307): rendered when [submitMessage] is not empty, in the colour
    that [submitMessage.includes('Error')] picks. *)
Definition notification (submitMessage : jsstring)
    : option (NotificationClass * jsstring) :=
  match submitMessage with
  | [] => None
  | _ :: _ =>
      Some (if includes submitMessage (lit "Error") then is_danger else is_success,
            submitMessage)
  end.

Definition isSubmitTask (t : UploadVariant.Task) : bool :=
  match t with
  | UploadVariant.SubmitTask => true
  | UploadVariant.UploadTask _ _ => false
  end.

Definition isUploadTask (t : UploadVariant.Task) : bool := negb (isSubmitTask t).

(** A session of the uploading variant: a drop, typing, the answer to the
    upload and a submission that is still waiting for its answer. *)
Definition uploading_session : list UploadVariant.Event :=
  [ UploadVariant.Drop [png "a.png"; pdf "notes.pdf"];
    UploadVariant.Input FName (lit "Ada");
    UploadVariant.Input FEmail (lit "ada@example.org");
    UploadVariant.Input FStory (lit "A story of ten characters or more.");
    UploadVariant.Submit sample_now;
    UploadVariant.UploadsSettled 0 [upload_ok "a"];
    UploadVariant.Submit sample_now ].

(** The flags of the uploading variant agree with the handlers that are
    waiting: one [onSubmit] exactly when [isSubmitting] is on, and a batch
    of uploads whenever [uploadingImages] is on; and no message is shown
    while [isSubmitting] is on. *)
Definition flags_follow (w : UploadVariant.World) : Prop :=
  List.length (filter isSubmitTask (UploadVariant.pending w))
  = (if UploadVariant.isSubmitting (UploadVariant.component w) then 1 else 0)
  /\ (UploadVariant.uploadingImages (UploadVariant.component w) = true ->
      exists captured files,
        In (UploadVariant.UploadTask captured files) (UploadVariant.pending w))
  /\ (UploadVariant.isSubmitting (UploadVariant.component w) = true ->
      UploadVariant.submitMessage (UploadVariant.component w) = []).

(** In the buffering variant [isSubmitting] is on exactly while the one
    [onSubmit] is waiting. *)
Definition one_submission (w : Base64Variant.World) : Prop :=
  (Base64Variant.isSubmitting (Base64Variant.component w) = false
   /\ Base64Variant.pending w = [])
  \/ (Base64Variant.isSubmitting (Base64Variant.component w) = true
      /\ exists t, Base64Variant.pending w = [t]).

(** [image.variants.thumbnail || image.variants.public]: the thumbnail
    unless it is missing or empty. *)
Definition previewSrc (i : UploadVariant.UploadedImage) : jsstring :=
  match UploadVariant.variants_thumbnail i with
  | Some (c :: t) => c :: t
  | _ => UploadVariant.variants_public i
  end.

(** The previews of part_000 (lines 316-344): for each entry the [src] and
    the [alt] of its [img].  Reading [image.variants] of an entry that is
    [undefined] throws a [TypeError]; [None] stands for a render that
    throws. *)
Definition renderPreviews (l : list UploadVariant.Slot)
    : option (list (jsstring * jsstring)) :=
  promise_all
    (map (fun image =>
            match image with
            | UploadVariant.descriptor i => Some (previewSrc i, UploadVariant.filename i)
            | UploadVariant.undefined => None
            end) l).

(** An answer [{success: true}] that carries no [image]. *)
Definition upload_ok_without_image : UploadVariant.UploadResponse :=
  UploadVariant.UploadHttp true
    (Some {| UploadVariant.success := true;
             UploadVariant.image := UploadVariant.absent;
             UploadVariant.error := None |}).

(** An answer [{success: true, image: null}]. *)
Definition upload_ok_null_image : UploadVariant.UploadResponse :=
  UploadVariant.UploadHttp true
    (Some {| UploadVariant.success := true;
             UploadVariant.image := UploadVariant.null;
             UploadVariant.error := None |}).

(** A text of the shape [on], word characters, white space, [=] that the
    pattern of the event handlers describes, followed by anything. *)
Definition handler_shape (s : jsstring) : Prop :=
  exists o n word space rest,
    s = o :: n :: word ++ space ++ cu "=" :: rest
    /\ (o = cu "o" \/ o = cu "O") /\ (n = cu "n" \/ n = cu "N")
    /\ word <> [] /\ forallb is_word word = true
    /\ forallb is_space space = true.

(** A stand-in for the browser's check of the [type="email"] input: it
    refuses an address with two dots in a row. *)
Definition sample_browser (v : jsstring) : bool := negb (includes v (lit "..")).

(** The three replacements of [sanitizeText], before its [trim]. *)
Definition scrub (t : jsstring) : jsstring :=
  replace_all re_handler (replace_all re_javascript (replace_all re_angle t)).

(** [sent] is [text] without the white space around it: [text] is [sent]
    between two runs of white space, and [sent] neither starts nor ends
    with white space. *)
Definition without_surrounding_space (text sent : jsstring) : Prop :=
  (exists l r,
      forallb is_space l = true /\ forallb is_space r = true
      /\ text = l ++ sent ++ r)
  /\ starts_with_space sent = false
  /\ ends_with_space sent = false.

(** What the request carries for a text as typed: the scrubbed text without
    the white space around it; white space typed around a text does not
    change what is sent, and a text with nothing to scrub is sent as it is
    but for that white space. *)
Definition carries_trimmed (typed sent : jsstring) : Prop :=
  without_surrounding_space (scrub typed) sent
  /\ forall ws1 core ws2,
      forallb is_space ws1 = true -> forallb is_space ws2 = true ->
      typed = ws1 ++ core ++ ws2 ->
      sent = sanitizeText core
      /\ (has_angle core = false ->
          occurs re_javascript core = false ->
          occurs re_handler core = false ->
          starts_with_space core = false ->
          ends_with_space core = false ->
          sent = core).

(** A match is never longer than the text. *)
Definition bounded (m : matcher) : Prop :=
  forall u n, m u = Some n -> n <= List.length u.

(** White space at the very end of the text does not change a match. *)
Definition ignores_trailing_space (m : matcher) : Prop :=
  forall u w, is_space w = true -> m (u ++ [w]) = m u.

(** A name typed with white space around it. *)
Definition padded_form (A : Type) : FormValues A :=
  {| name := lit "  Ada Lovelace ";
     email := lit "ada@example.org";
     story := lit "A story of ten characters or more.";
     images := None |}.

(** * Properties *)

(** ** Scanning and trimming *)

Lemma replace_go_Forall (P : codeunit -> Prop) (m : matcher) (s : jsstring) :
  Forall P s -> forall skip, Forall P (replace_go m skip s).
Proof.
  induction 1 as [|c s Hc Hs IH]; intros skip; simpl.
  - constructor.
  - destruct skip as [|n]; [|apply IH].
    destruct (m (c :: s)) as [[|n]|]; try apply IH; constructor; auto.
Qed.

Lemma no_angle_has_angle (s : jsstring) : no_angle s -> has_angle s = false.
Proof.
  induction 1 as [|c s Hc _ IH]; simpl; [reflexivity|].
  now rewrite Hc, IH.
Qed.

Lemma replace_angle_no_angle (s : jsstring) : no_angle (replace_all re_angle s).
Proof.
  unfold replace_all, no_angle.
  induction s as [|c s IH]; simpl; [constructor|].
  destruct (is_angle c) eqn:Hc; simpl; [exact IH|].
  constructor; assumption.
Qed.

(** A pattern that matches nowhere leaves the text as it is. *)
Lemma replace_all_fixed (m : matcher) (s : jsstring) :
  occurs m s = false -> replace_all m s = s.
Proof.
  unfold replace_all.
  induction s as [|c s IH]; simpl; [reflexivity|].
  unfold test. intros H.
  apply orb_false_iff in H as [Hm Hs].
  destruct (m (c :: s)) as [n|]; [discriminate|].
  now rewrite IH.
Qed.

Lemma no_angle_occurs (s : jsstring) : no_angle s -> occurs re_angle s = false.
Proof.
  induction 1 as [|c s Hc _ IH]; simpl; [reflexivity|].
  unfold test, re_angle, cls. now rewrite Hc.
Qed.

Lemma trimStart_suffix (s : jsstring) :
  exists ws, s = ws ++ trimStart s.
Proof.
  induction s as [|c s [ws IH]]; simpl.
  - now exists [].
  - destruct (is_space c).
    + exists (c :: ws). simpl. now f_equal.
    + now exists [].
Qed.

Lemma trimStart_head (s : jsstring) : starts_with_space (trimStart s) = false.
Proof.
  induction s as [|c s IH]; simpl; [reflexivity|].
  destruct (is_space c) eqn:Hc; [exact IH|].
  simpl. exact Hc.
Qed.

Lemma trimStart_fixed (s : jsstring) :
  starts_with_space s = false -> trimStart s = s.
Proof.
  destruct s as [|c s]; simpl; [reflexivity|].
  now intros ->.
Qed.

Lemma trimEnd_prefix (s : jsstring) :
  exists ws, s = trimEnd s ++ ws.
Proof.
  unfold trimEnd.
  destruct (trimStart_suffix (rev s)) as [ws H].
  exists (rev ws).
  rewrite <- rev_app_distr, <- H. now rewrite rev_involutive.
Qed.

Lemma trimEnd_last (s : jsstring) : ends_with_space (trimEnd s) = false.
Proof.
  unfold ends_with_space, trimEnd.
  rewrite rev_involutive. apply trimStart_head.
Qed.

Lemma trimEnd_fixed (s : jsstring) :
  ends_with_space s = false -> trimEnd s = s.
Proof.
  unfold ends_with_space, trimEnd. intros H.
  rewrite (trimStart_fixed _ H). apply rev_involutive.
Qed.

Lemma trimEnd_head (s : jsstring) :
  starts_with_space s = false -> starts_with_space (trimEnd s) = false.
Proof.
  intros H. destruct (trimEnd_prefix s) as [ws E].
  destruct (trimEnd s) as [|c r]; [reflexivity|].
  rewrite E in H. exact H.
Qed.

Lemma trim_head (s : jsstring) : starts_with_space (trim s) = false.
Proof. apply trimEnd_head, trimStart_head. Qed.

Lemma trim_last (s : jsstring) : ends_with_space (trim s) = false.
Proof. apply trimEnd_last. Qed.

Lemma trim_fixed (s : jsstring) :
  starts_with_space s = false -> ends_with_space s = false -> trim s = s.
Proof.
  intros Hs He. unfold trim.
  rewrite (trimStart_fixed _ Hs). now apply trimEnd_fixed.
Qed.

Lemma trim_idempotent (s : jsstring) : trim (trim s) = trim s.
Proof. apply trim_fixed; [apply trim_head | apply trim_last]. Qed.

Lemma no_angle_app (a b : jsstring) :
  no_angle (a ++ b) <-> no_angle a /\ no_angle b.
Proof. apply Forall_app. Qed.

Lemma trim_no_angle (s : jsstring) : no_angle s -> no_angle (trim s).
Proof.
  intros H. unfold trim.
  destruct (trimStart_suffix s) as [ws1 E1].
  destruct (trimEnd_prefix (trimStart s)) as [ws2 E2].
  rewrite E1, E2 in H.
  apply no_angle_app in H as [_ H].
  now apply no_angle_app in H as [H _].
Qed.

(** The scrubbed text has no angle bracket left, whatever the input. *)
Lemma sanitizeText_no_angle (t : jsstring) : no_angle (sanitizeText t).
Proof.
  unfold sanitizeText, replace_all.
  apply trim_no_angle.
  do 2 apply replace_go_Forall.
  apply replace_angle_no_angle.
Qed.

(** A second pass changes nothing when the first left none of the two
    multi-character patterns behind. *)
Lemma sanitizeText_stable (t : jsstring) :
  occurs re_javascript (sanitizeText t) = false ->
  occurs re_handler (sanitizeText t) = false ->
  sanitizeText (sanitizeText t) = sanitizeText t.
Proof.
  intros Hj Hh.
  set (u := sanitizeText t) in *.
  unfold sanitizeText at 1.
  rewrite (replace_all_fixed re_angle u)
    by apply no_angle_occurs, sanitizeText_no_angle.
  rewrite (replace_all_fixed _ _ Hj), (replace_all_fixed _ _ Hh).
  apply trim_idempotent.
Qed.

(** ** The sanitizer *)

(** C2. [sanitizeText] is not idempotent: on a text in which
    [javascript:] is nested inside another [javascript:] the one pass of
    [replace] removes the inner occurrence and leaves the outer one
    assembled, so a second application removes more. *)
Theorem sanitizeText_second_pass_differs :
  sanitizeText nested_javascript = lit "javascript:alert(1)"
  /\ sanitizeText (sanitizeText nested_javascript) = lit "alert(1)"
  /\ sanitizeText (sanitizeText nested_javascript) <> sanitizeText nested_javascript.
Proof.
  assert (H1 : sanitizeText nested_javascript = lit "javascript:alert(1)")
    by (vm_compute; reflexivity).
  assert (H2 : sanitizeText (lit "javascript:alert(1)") = lit "alert(1)")
    by (vm_compute; reflexivity).
  rewrite H1, H2. repeat split. discriminate.
Qed.

(** C6. The name and the story that [onSubmit] puts in the request can
    still hold [javascript:] and an event-handler attribute: for a name
    [oonx=nclick=alert(1)] and a story [javajavascript:script:alert(1)]
    the payload carries [onclick=alert(1)] and [javascript:alert(1)], in
    both variants. *)
Theorem payload_keeps_nested_patterns :
  let p := UploadVariant.sanitizedPayload (hostile_form _) [] sample_now in
  let q := Base64Variant.sanitizedPayload (hostile_form _) [] sample_now in
  p_name p = lit "onclick=alert(1)"
  /\ p_story p = lit "javascript:alert(1)"
  /\ test re_handler (p_name p) = true
  /\ test re_javascript (p_story p) = true
  /\ includes (p_story p) (lit "javascript:") = true
  /\ p_name q = p_name p
  /\ p_story q = p_story p.
Proof. vm_compute. repeat split. Qed.

(** ** Attachments *)

Lemma imageFilesOf_In (files : list File) (f : File) :
  In f (imageFilesOf files)
  <-> In f files /\ startsWith (file_type f) (lit "image/") = true.
Proof. unfold imageFilesOf. apply filter_In. Qed.

(** C8. [handleFiles] goes on with the files whose type starts with
    [image/], in their order, and with no other: the buffering variant
    appends exactly these to [uploadedFiles], the uploading variant sends
    one upload request for each of these and waits for these.  Of the three
    files [a.png], [notes.pdf], [b.png] the two images are kept. *)
Theorem handleFiles_keeps_images :
  forall files : list File,
    (forall f, In f (imageFilesOf files)
               <-> In f files /\ startsWith (file_type f) (lit "image/") = true)
    /\ (forall s,
          Base64Variant.uploadedFiles (Base64Variant.handleFiles files s)
          = Base64Variant.uploadedFiles s ++ imageFilesOf files)
    /\ (forall s,
          UploadVariant.requests (fst (UploadVariant.handleFiles_start files s))
          = UploadVariant.requests s
            ++ map UploadVariant.PostUploadImage (imageFilesOf files))
    /\ (forall s captured batch,
          snd (UploadVariant.handleFiles_start files s)
          = Some (UploadVariant.UploadTask captured batch) ->
          batch = imageFilesOf files)
    /\ imageFilesOf [png "a.png"; pdf "notes.pdf"; png "b.png"]
       = [png "a.png"; png "b.png"].
Proof.
  intros files. split; [apply imageFilesOf_In|].
  split; [|split; [|split]].
  - intros s. unfold Base64Variant.handleFiles.
    destruct (imageFilesOf files); simpl; [now rewrite app_nil_r | reflexivity].
  - intros s. unfold UploadVariant.handleFiles_start.
    destruct (imageFilesOf files); simpl; [now rewrite app_nil_r | reflexivity].
  - intros s captured batch. unfold UploadVariant.handleFiles_start.
    destruct (imageFilesOf files); simpl; [discriminate|].
    now intros [= _ <-].
  - reflexivity.
Qed.

Lemma handleFiles_keeps_images_witness :
  In (png "b.png") (imageFilesOf [png "a.png"; pdf "notes.pdf"; png "b.png"]).
Proof.
  apply (proj1 (handleFiles_keeps_images
                  [png "a.png"; pdf "notes.pdf"; png "b.png"])).
  split; [simpl; auto | reflexivity].
Defined.

Lemma filter_index_from_outside (A : Type) (l : list A) :
  forall (i : nat) (index : Z),
    (index < Z.of_nat i \/ Z.of_nat (i + List.length l) <= index)%Z ->
    filter_index_from i index l = l.
Proof.
  induction l as [|x l IH]; intros i index H; simpl; [reflexivity|].
  simpl in H.
  destruct (Z.eqb_spec (Z.of_nat i) index) as [E|_]; [lia|].
  f_equal. apply IH. lia.
Qed.

Lemma filter_index_outside (A : Type) (l : list A) (index : Z) :
  (index < 0 \/ Z.of_nat (List.length l) <= index)%Z ->
  filter_index index l = l.
Proof.
  intros H. apply filter_index_from_outside. simpl. lia.
Qed.

(** C10, as the code has it.  Removing at an index that is not a position
    of the attachment list keeps every entry, in both variants: the list
    is unchanged and the form value under 'images' is set to that same
    list; read as a list, the form value is unchanged exactly when it held
    the attachment list before. *)
Theorem remove_outside_is_noop :
  forall index : Z,
    (forall s,
        (index < 0 \/ Z.of_nat (List.length (UploadVariant.uploadedImages s)) <= index)%Z ->
        let s' := UploadVariant.removeImage index s in
        UploadVariant.uploadedImages s' = UploadVariant.uploadedImages s
        /\ images (UploadVariant.formValues s') = Some (UploadVariant.uploadedImages s)
        /\ (UploadVariant.in_sync s <->
            imagesValue (UploadVariant.formValues s')
            = imagesValue (UploadVariant.formValues s)))
    /\ (forall s,
        (index < 0 \/ Z.of_nat (List.length (Base64Variant.uploadedFiles s)) <= index)%Z ->
        let s' := Base64Variant.removeFile index s in
        Base64Variant.uploadedFiles s' = Base64Variant.uploadedFiles s
        /\ images (Base64Variant.formValues s') = Some (Base64Variant.uploadedFiles s)
        /\ (Base64Variant.in_sync s <->
            imagesValue (Base64Variant.formValues s')
            = imagesValue (Base64Variant.formValues s))).
Proof.
  intros index. split; intros s H; cbn;
    rewrite (filter_index_outside _ H); unfold imagesValue; cbn;
    (split; [reflexivity|split; [reflexivity|]]);
    split; intros E; symmetry; exact E.
Qed.

Lemma remove_outside_is_noop_witness :
  (UploadVariant.uploadedImages (UploadVariant.removeImage 1 (filled "Ada"))
   = UploadVariant.uploadedImages (filled "Ada")
   /\ imagesValue (UploadVariant.formValues (UploadVariant.removeImage 1 (filled "Ada")))
      = imagesValue (UploadVariant.formValues (filled "Ada")))
  /\ (Base64Variant.uploadedFiles (Base64Variant.removeFile (-1) (filled_base64 "Ada"))
      = Base64Variant.uploadedFiles (filled_base64 "Ada")
      /\ imagesValue (Base64Variant.formValues
                        (Base64Variant.removeFile (-1) (filled_base64 "Ada")))
         = imagesValue (Base64Variant.formValues (filled_base64 "Ada"))).
Proof.
  split.
  - assert (R : (1 < 0 \/ Z.of_nat (List.length
                    (UploadVariant.uploadedImages (filled "Ada"))) <= 1)%Z)
      by (simpl; lia).
    destruct (proj1 (remove_outside_is_noop 1) (filled "Ada") R) as (H1 & _ & H3).
    split; [exact H1 | apply (proj1 H3); reflexivity].
  - assert (R : (-1 < 0 \/ Z.of_nat (List.length
                    (Base64Variant.uploadedFiles (filled_base64 "Ada"))) <= -1)%Z)
      by (simpl; lia).
    destruct (proj2 (remove_outside_is_noop (-1)) (filled_base64 "Ada") R)
      as (H1 & _ & H3).
    split; [exact H1 | apply (proj1 H3); reflexivity].
Defined.

(** C10 as stated fails: the form value does change.  On the page as
    loaded a removal at index 0 (the list is empty) sets the absent value
    to the empty list; and after two overlapping drops, where the form
    value holds one image and the list two, a removal at index 5 sets the
    form value to the two. *)
Lemma remove_outside_rewrites_form_value :
  let s := UploadVariant.component
             (UploadVariant.run UploadVariant.start overlapping_drops) in
  let a := UploadVariant.descriptor (image_of "a") in
  let b := UploadVariant.descriptor (image_of "b") in
  (Z.of_nat (List.length (UploadVariant.uploadedImages UploadVariant.initial)) <= 0)%Z
  /\ images (UploadVariant.formValues UploadVariant.initial) = None
  /\ images (UploadVariant.formValues
               (UploadVariant.removeImage 0 UploadVariant.initial)) = Some []
  /\ (Z.of_nat (List.length (UploadVariant.uploadedImages s)) <= 5)%Z
  /\ images (UploadVariant.formValues s) = Some [b]
  /\ images (UploadVariant.formValues (UploadVariant.removeImage 5 s)) = Some [a; b]
  /\ imagesValue (UploadVariant.formValues (UploadVariant.removeImage 5 s))
     <> imagesValue (UploadVariant.formValues s).
Proof.
  cbn. repeat split; try lia. discriminate.
Qed.

(** ** Uploads *)

Lemma upload_result (r : UploadVariant.UploadResponse) :
  fst (UploadVariant.uploadImageToCloudflare r)
  = if succeeded r then Some (returned r) else None.
Proof.
  destruct r as [|[] [result|]]; simpl; try reflexivity.
  destruct (UploadVariant.success result); [|reflexivity].
  destruct (UploadVariant.image result); reflexivity.
Qed.

Lemma successful_uploads (answers : list UploadVariant.UploadResponse) :
  non_null (map fst (map UploadVariant.uploadImageToCloudflare answers))
  = map returned (filter succeeded answers).
Proof.
  induction answers as [|r answers IH]; simpl; [reflexivity|].
  rewrite upload_result.
  destruct (succeeded r); simpl; now rewrite IH.
Qed.

Lemma handleFiles_resume_images captured answers s :
  UploadVariant.uploadedImages (UploadVariant.handleFiles_resume captured answers s)
  = UploadVariant.uploadedImages s ++ map returned (filter succeeded answers).
Proof. cbn. now rewrite successful_uploads. Qed.

Lemma handleFiles_resume_value captured answers s :
  images (UploadVariant.formValues (UploadVariant.handleFiles_resume captured answers s))
  = Some (captured ++ map returned (filter succeeded answers)).
Proof. cbn. now rewrite successful_uploads. Qed.

(** C3. When the uploads of a batch are answered, an upload that failed
    (a non-ok status, an answer with [success: false], no answer or no
    JSON) resolves to [null] and adds nothing, and the attachment list
    becomes the previous list followed by what the successful uploads
    returned, in the order of the files: every successful upload of the
    batch is in the list, whatever happened to the others.  With one
    refused and one accepted upload only the accepted image is added.  An
    answer whose [image] is [null] resolves to [null] as a failure does
    and is filtered with them. *)
Theorem failed_upload_does_not_drop_others :
  forall (captured : list UploadVariant.Slot)
         (answers : list UploadVariant.UploadResponse) (s : UploadVariant.State),
    let s' := UploadVariant.handleFiles_resume captured answers s in
    (forall body, fst (UploadVariant.uploadImageToCloudflare
                         (UploadVariant.UploadHttp false body)) = None)
    /\ (forall result,
          UploadVariant.success result = false ->
          fst (UploadVariant.uploadImageToCloudflare
                 (UploadVariant.UploadHttp true (Some result))) = None)
    /\ (forall r, succeeded r = false ->
                  fst (UploadVariant.uploadImageToCloudflare r) = None)
    /\ UploadVariant.uploadedImages s'
       = UploadVariant.uploadedImages s ++ map returned (filter succeeded answers)
    /\ (forall r, In r answers -> succeeded r = true ->
                  fst (UploadVariant.uploadImageToCloudflare r) = Some (returned r)
                  /\ In (returned r) (UploadVariant.uploadedImages s'))
    /\ UploadVariant.uploadedImages
         (UploadVariant.handleFiles_resume captured [upload_refused; upload_ok "b"] s)
       = UploadVariant.uploadedImages s ++ [UploadVariant.descriptor (image_of "b")]
    /\ (forall result,
          succeeded (UploadVariant.UploadHttp true (Some result)) = true
          <-> UploadVariant.success result = true
              /\ UploadVariant.image result <> UploadVariant.null)
    /\ (forall result,
          UploadVariant.image result = UploadVariant.null ->
          fst (UploadVariant.uploadImageToCloudflare
                 (UploadVariant.UploadHttp true (Some result))) = None).
Proof.
  intros captured answers s s'.
  split; [reflexivity|].
  split; [intros result H; simpl; now rewrite H|].
  split; [intros r H; now rewrite upload_result, H|].
  split; [apply handleFiles_resume_images|].
  split.
  { intros r Hin Hok. split; [now rewrite upload_result, Hok|].
    subst s'. rewrite handleFiles_resume_images.
    apply in_or_app. right. apply in_map, filter_In. now split. }
  split; [reflexivity|].
  split.
  - intros result. simpl.
    destruct (UploadVariant.success result), (UploadVariant.image result);
      simpl; split;
      first [ discriminate
            | intros [H1 H2]; first [discriminate H1 | now elim H2]
            | intros _; split; [reflexivity | discriminate]
            | intros _; reflexivity ].
  - intros result H. simpl. rewrite H.
    destruct (UploadVariant.success result); reflexivity.
Qed.

Lemma failed_upload_does_not_drop_others_witness :
  fst (UploadVariant.uploadImageToCloudflare upload_refused) = None
  /\ In (UploadVariant.descriptor (image_of "b"))
        (UploadVariant.uploadedImages
           (UploadVariant.handleFiles_resume []
              [upload_refused; upload_ok "b"] UploadVariant.initial)).
Proof.
  pose proof (failed_upload_does_not_drop_others []
                [upload_refused; upload_ok "b"] UploadVariant.initial)
    as (_ & _ & Hfail & _ & Hok & _).
  split.
  - apply Hfail. reflexivity.
  - apply (Hok (upload_ok "b")); [simpl; auto | reflexivity].
Defined.

(** ** Submission *)

Lemma length_bounds_ok (r : Rules) (v : jsstring) (lo hi : N) (m1 m2 : jsstring) :
  minLength r = Some (lo, m1) -> maxLength r = Some (hi, m2) -> pattern r = None ->
  (0 < lo <= N.of_nat (List.length v))%N -> (N.of_nat (List.length v) <= hi)%N ->
  validateField r v = None.
Proof.
  intros Hmin Hmax Hpat Hlo Hhi.
  destruct v as [|c v]; [simpl in Hlo; lia|].
  unfold validateField, exceeds_max, exceeds_min.
  rewrite Hmin, Hmax, Hpat.
  destruct (N.ltb_spec hi (N.of_nat (List.length (c :: v)))); [lia|].
  destruct (N.ltb_spec (N.of_nat (List.length (c :: v))) lo); [lia|].
  reflexivity.
Qed.

Lemma email_ok (v : jsstring) :
  test re_email v = true -> validateField rules_email v = None.
Proof.
  intros H. destruct v as [|c v]; [discriminate H|].
  unfold validateField. cbn [exceeds_max exceeds_min rules_email maxLength minLength pattern].
  now rewrite H.
Qed.

(** A form whose three fields pass their rules. *)
Lemma validate_ok (A : Type) (f : FormValues A) :
  (2 <= N.of_nat (List.length (name f)) <= 100)%N ->
  test re_email (email f) = true ->
  (10 <= N.of_nat (List.length (story f)) <= 5000)%N ->
  validate f = noErrors.
Proof.
  intros Hn He Hs. unfold validate, noErrors.
  rewrite (@length_bounds_ok rules_name (name f) 2 100 _ _ eq_refl eq_refl eq_refl)
    by lia.
  rewrite (email_ok _ He).
  rewrite (@length_bounds_ok rules_story (story f) 10 5000 _ _ eq_refl eq_refl eq_refl)
    by lia.
  reflexivity.
Qed.

(** C7, as the code has it.  When the name, the e-mail address and the
    story all pass their rules (2 to 100 code units, the address pattern,
    10 to 5000 code units), [handleSubmit] runs [onSubmit], which sends the
    request with the scrubbed fields and the current attachment list.  So a
    press of the submit button sends the request when, besides, the button
    is enabled and the browser's own check of the [type="email"] input
    accepts the address; a press that the browser refuses, or on the
    disabled button, changes nothing. *)
Theorem valid_form_is_posted :
  forall (browser_accepts : jsstring -> bool) (now : jsstring)
         (s : UploadVariant.State),
    let f := UploadVariant.formValues s in
    (2 <= N.of_nat (List.length (name f)) <= 100)%N ->
    test re_email (email f) = true ->
    (10 <= N.of_nat (List.length (story f)) <= 5000)%N ->
    (UploadVariant.requests (fst (UploadVariant.handleSubmit now s))
     = UploadVariant.requests s
       ++ [UploadVariant.PostSubmitStory
             (UploadVariant.sanitizedPayload f (UploadVariant.uploadedImages s) now)]
     /\ snd (UploadVariant.handleSubmit now s) = Some UploadVariant.SubmitTask)
    /\ (UploadVariant.isSubmitting s = false ->
        UploadVariant.uploadingImages s = false ->
        browser_accepts (email f) = true ->
        UploadVariant.requests (fst (UploadVariant.pressSubmit browser_accepts now s))
        = UploadVariant.requests s
          ++ [UploadVariant.PostSubmitStory
                (UploadVariant.sanitizedPayload f (UploadVariant.uploadedImages s) now)]
        /\ snd (UploadVariant.pressSubmit browser_accepts now s)
           = Some UploadVariant.SubmitTask)
    /\ (browser_accepts (email f) = false ->
        UploadVariant.pressSubmit browser_accepts now s = (s, None))
    /\ (UploadVariant.isSubmitting s || UploadVariant.uploadingImages s = true ->
        UploadVariant.pressSubmit browser_accepts now s = (s, None)).
Proof.
  intros browser_accepts now s f Hn He Hs.
  assert (H : UploadVariant.requests (fst (UploadVariant.handleSubmit now s))
              = UploadVariant.requests s
                ++ [UploadVariant.PostSubmitStory
                      (UploadVariant.sanitizedPayload f
                         (UploadVariant.uploadedImages s) now)]
              /\ snd (UploadVariant.handleSubmit now s)
                 = Some UploadVariant.SubmitTask).
  { unfold UploadVariant.handleSubmit.
    fold f. rewrite (validate_ok f Hn He Hs).
    split; reflexivity. }
  split; [exact H|].
  unfold UploadVariant.pressSubmit. fold f.
  split; [intros -> -> ->; exact H|].
  split.
  - intros ->. now destruct (_ || _).
  - now intros ->.
Qed.

Lemma valid_form_is_posted_witness :
  UploadVariant.requests
    (fst (UploadVariant.pressSubmit sample_browser sample_now (filled "Ada")))
  = [UploadVariant.PostSubmitStory
       (UploadVariant.sanitizedPayload (UploadVariant.formValues (filled "Ada"))
          [UploadVariant.descriptor (image_of "a")] sample_now)].
Proof.
  apply (valid_form_is_posted sample_browser sample_now (filled "Ada"));
    [simpl; lia | reflexivity | simpl; lia | reflexivity | reflexivity | reflexivity].
Defined.

(** C7 as stated fails: a story of 34 characters with an empty name is not
    sent; [handleSubmit] records the error of the name and makes no
    request, and so does a press of the enabled button with an address
    that the browser accepts. *)
Lemma story_length_alone_is_not_enough :
  let s := filled "" in
  (10 <= N.of_nat (List.length (story (UploadVariant.formValues s))) <= 5000)%N
  /\ UploadVariant.requests (fst (UploadVariant.handleSubmit sample_now s)) = []
  /\ snd (UploadVariant.handleSubmit sample_now s) = None
  /\ err_name (UploadVariant.errors (fst (UploadVariant.handleSubmit sample_now s)))
     = Some (lit "Name is required")
  /\ UploadVariant.pressSubmit sample_browser sample_now s
     = UploadVariant.handleSubmit sample_now s
  /\ UploadVariant.requests
       (fst (UploadVariant.pressSubmit sample_browser sample_now s)) = [].
Proof. simpl. repeat split; lia. Qed.

(** C4. When the request fails or is answered with a non-success status,
    [onSubmit] ends with the generic error message, one ["Submission
    error:"] line logged, [isSubmitting] off, and the form values and the
    attachment list as they were; in both variants. *)
Theorem failed_submission_keeps_state :
  forall r : SubmitResponse,
    submission_failed r = true ->
    (forall data now s,
        let s' := UploadVariant.onSubmit data now r s in
        UploadVariant.submitMessage s' = msg_submit_error
        /\ UploadVariant.console s' = UploadVariant.console s ++ [log_submission]
        /\ UploadVariant.formValues s' = UploadVariant.formValues s
        /\ UploadVariant.uploadedImages s' = UploadVariant.uploadedImages s
        /\ UploadVariant.isSubmitting s' = false)
    /\ (forall data now reader s,
        let s' := Base64Variant.onSubmit data now reader r s in
        Base64Variant.submitMessage s' = msg_submit_error
        /\ Base64Variant.console s' = Base64Variant.console s ++ [log_submission]
        /\ Base64Variant.formValues s' = Base64Variant.formValues s
        /\ Base64Variant.uploadedFiles s' = Base64Variant.uploadedFiles s
        /\ Base64Variant.isSubmitting s' = false).
Proof.
  intros r Hr. split.
  - intros data now s.
    destruct r as [|[] j]; try discriminate Hr; cbn; repeat split.
  - intros data now reader s.
    unfold Base64Variant.onSubmit, Base64Variant.onSubmit_start.
    destruct (Base64Variant.uploadedFiles s) as [|f l] eqn:E.
    + destruct r as [|[] j]; try discriminate Hr; cbn; rewrite ?E; repeat split.
    + unfold Base64Variant.onSubmit_read.
      destruct (Base64Variant.imageDataOf reader (f :: l));
        destruct r as [|[] j]; try discriminate Hr; cbn; rewrite ?E; repeat split.
Qed.

Lemma failed_submission_keeps_state_witness :
  UploadVariant.formValues
    (UploadVariant.onSubmit (sample_form _ "Ada") sample_now
       (SubmitHttp false true) (filled "Ada"))
  = UploadVariant.formValues (filled "Ada")
  /\ Base64Variant.uploadedFiles
       (Base64Variant.onSubmit (sample_form _ "Ada") sample_now
          (fun _ => Some (lit "data:image/png;base64,AAAA"))
          SubmitNetworkError (filled_base64 "Ada"))
     = [png "a.png"].
Proof.
  split.
  - apply (proj1 (failed_submission_keeps_state (SubmitHttp false true) eq_refl)
             (sample_form _ "Ada") sample_now (filled "Ada")).
  - apply (proj2 (failed_submission_keeps_state SubmitNetworkError eq_refl)
             (sample_form _ "Ada") sample_now
             (fun _ => Some (lit "data:image/png;base64,AAAA"))
             (filled_base64 "Ada")).
Defined.

(** C5, as the code has it.  When the request is answered with a success
    status and the body of the answer parses as JSON, [onSubmit] ends with
    the success message shown and the attachment list empty; in part_000
    the form is blank too, and in the buffering variant (where the request
    is made once every file has been read) the form value under 'images'
    is gone.  For any other answer the form values and the attachment list
    stay as they were and the error message is shown. *)
Theorem successful_submission_resets :
  (forall data now s,
      let s' := UploadVariant.onSubmit data now (SubmitHttp true true) s in
      UploadVariant.formValues s' = blankForm _
      /\ UploadVariant.uploadedImages s' = []
      /\ UploadVariant.submitMessage s' = msg_success
      /\ UploadVariant.isSubmitting s' = false)
  /\ (forall data now reader s,
      Base64Variant.imageDataOf reader (Base64Variant.uploadedFiles s) <> None ->
      let s' := Base64Variant.onSubmit data now reader (SubmitHttp true true) s in
      Base64Variant.uploadedFiles s' = []
      /\ images (Base64Variant.formValues s') = None
      /\ Base64Variant.errors s' = noErrors
      /\ Base64Variant.submitMessage s' = msg_success
      /\ Base64Variant.isSubmitting s' = false)
  /\ (forall r data now s,
      r <> SubmitHttp true true ->
      let s' := UploadVariant.onSubmit data now r s in
      UploadVariant.formValues s' = UploadVariant.formValues s
      /\ UploadVariant.uploadedImages s' = UploadVariant.uploadedImages s
      /\ UploadVariant.submitMessage s' = msg_submit_error)
  /\ (forall r data now reader s,
      r <> SubmitHttp true true ->
      let s' := Base64Variant.onSubmit data now reader r s in
      Base64Variant.formValues s' = Base64Variant.formValues s
      /\ Base64Variant.uploadedFiles s' = Base64Variant.uploadedFiles s
      /\ Base64Variant.submitMessage s' = msg_submit_error).
Proof.
  split; [|split; [|split]].
  - intros data now s. cbn. repeat split.
  - intros data now reader s Hread.
    unfold Base64Variant.onSubmit, Base64Variant.onSubmit_start.
    destruct (Base64Variant.uploadedFiles s) as [|f l] eqn:E.
    + cbn. repeat split.
    + unfold Base64Variant.onSubmit_read.
      destruct (Base64Variant.imageDataOf reader (f :: l)); [|now elim Hread].
      cbn. repeat split.
  - intros r data now s Hr.
    destruct r as [|[] []]; try (now elim Hr); cbn; repeat split.
  - intros r data now reader s Hr.
    unfold Base64Variant.onSubmit, Base64Variant.onSubmit_start.
    destruct (Base64Variant.uploadedFiles s) as [|f l] eqn:E.
    + destruct r as [|[] []]; try (now elim Hr); cbn; rewrite ?E; repeat split.
    + unfold Base64Variant.onSubmit_read.
      destruct (Base64Variant.imageDataOf reader (f :: l));
        destruct r as [|[] []]; try (now elim Hr); cbn; rewrite ?E; repeat split.
Qed.

Lemma successful_submission_resets_witness :
  Base64Variant.uploadedFiles
    (Base64Variant.onSubmit (sample_form _ "Ada") sample_now
       (fun _ => Some (lit "data:image/png;base64,AAAA"))
       (SubmitHttp true true) (filled_base64 "Ada")) = []
  /\ UploadVariant.uploadedImages
       (UploadVariant.onSubmit (sample_form _ "Ada") sample_now
          (SubmitHttp false true) (filled "Ada"))
     = UploadVariant.uploadedImages (filled "Ada").
Proof.
  destruct successful_submission_resets as (_ & Hb & Hu & _).
  split.
  - apply (Hb (sample_form _ "Ada") sample_now
              (fun _ => Some (lit "data:image/png;base64,AAAA"))
              (filled_base64 "Ada")).
    discriminate.
  - apply (Hu (SubmitHttp false true) (sample_form _ "Ada") sample_now (filled "Ada")).
    discriminate.
Defined.

(** C5 as stated fails: an answer with a success status whose body is not
    JSON makes [await response.json()] throw, and [onSubmit] ends in its
    [catch]: the form and the attachment list are kept and the error
    message is shown. *)
Lemma success_status_without_json_keeps_state :
  let s := filled "Ada" in
  let s' := UploadVariant.onSubmit (UploadVariant.formValues s) sample_now
              (SubmitHttp true false) s in
  UploadVariant.submitMessage s' = msg_submit_error
  /\ UploadVariant.submitMessage s' <> msg_success
  /\ UploadVariant.formValues s' = UploadVariant.formValues s
  /\ name (UploadVariant.formValues s') = lit "Ada"
  /\ UploadVariant.formValues s' <> blankForm _
  /\ UploadVariant.uploadedImages s' = [UploadVariant.descriptor (image_of "a")]
  /\ UploadVariant.uploadedImages s' <> [].
Proof. cbn. repeat split; discriminate. Qed.

(** ** The attachment list and the form value under 'images' *)

(** In the buffering variant every turn of the event loop leaves the two
    in step: [handleFiles] runs to its end within one turn, so the
    [uploadedFiles] it reads is the list it appends to. *)
Lemma base64_step_in_sync (w : Base64Variant.World) (e : Base64Variant.Event) :
  Base64Variant.in_sync (Base64Variant.component w) ->
  Base64Variant.in_sync (Base64Variant.component (Base64Variant.step w e)).
Proof.
  unfold Base64Variant.in_sync. intros H.
  destruct e as [fld v|files|index|now|k reader now|k r|]; simpl;
    [| | | | | |exact H].
  - destruct fld; exact H.
  - unfold Base64Variant.handleDrop, Base64Variant.handleFiles.
    destruct (imageFilesOf files); [exact H | reflexivity].
  - reflexivity.
  - destruct (Base64Variant.isSubmitting (Base64Variant.component w)); [exact H|].
    unfold Base64Variant.handleSubmit, Base64Variant.onSubmit_start.
    destruct (isValid _); [|exact H]. cbn.
    destruct (Base64Variant.uploadedFiles (Base64Variant.component w)) eqn:E;
      cbn; rewrite ?E; exact H.
  - destruct (nth_error (Base64Variant.pending w) k) as [[data captured|]|];
      try exact H.
    unfold Base64Variant.onSubmit_read.
    destruct (Base64Variant.imageDataOf reader captured); exact H.
  - destruct (nth_error (Base64Variant.pending w) k) as [[data captured|]|];
      try exact H.
    destruct r as [|[] []]; first [exact H | reflexivity].
Qed.

Lemma base64_run_in_sync (es : list Base64Variant.Event) :
  forall w,
    Base64Variant.in_sync (Base64Variant.component w) ->
    Base64Variant.in_sync (Base64Variant.component (Base64Variant.run w es)).
Proof.
  unfold Base64Variant.run.
  induction es as [|e es IH]; intros w H; simpl; [exact H|].
  apply IH, base64_step_in_sync, H.
Qed.

(** X13. In the buffering variant the attachment list and the form value
    under 'images' hold the same list in every state that typing, drops,
    removals, presses of the submit button, clicks on the delete button of
    the notification and the ends of readings and requests lead to. *)
Lemma base64_reachable_in_sync (w : Base64Variant.World) :
  Base64Variant.reachable w -> Base64Variant.in_sync (Base64Variant.component w).
Proof.
  intros [es <-]. apply base64_run_in_sync. reflexivity.
Qed.

(** In the uploading variant a batch that is answered before anything else
    happens keeps the two in step, and so do a removal and the end of a
    submission. *)
Lemma upload_handleFiles_in_sync files answers (s : UploadVariant.State) :
  UploadVariant.in_sync s ->
  UploadVariant.in_sync (UploadVariant.handleFiles files answers s).
Proof.
  unfold UploadVariant.in_sync, UploadVariant.handleFiles,
    UploadVariant.handleFiles_start.
  intros H. destruct (imageFilesOf files); [exact H|].
  cbn. reflexivity.
Qed.

Lemma upload_removeImage_in_sync index (s : UploadVariant.State) :
  UploadVariant.in_sync (UploadVariant.removeImage index s).
Proof. reflexivity. Qed.

Lemma upload_onSubmit_resume_in_sync r (s : UploadVariant.State) :
  UploadVariant.in_sync s ->
  UploadVariant.in_sync (UploadVariant.onSubmit_resume r s).
Proof.
  unfold UploadVariant.in_sync. intros H.
  destruct r as [|[] []]; first [exact H | reflexivity].
Qed.

(** C1. In the uploading variant the two lists come apart.  A second image
    dropped while the upload of the first is running ends with both images
    in [uploadedImages] and only the second in the form value: when a
    batch is answered, [setUploadedImages] appends to the current list but
    [setValue] appends to the list of the render in which [handleFiles]
    was called.  Likewise an image removed while another is uploading
    comes back in the form value. *)
Theorem overlapping_uploads_break_sync :
  let w := UploadVariant.run UploadVariant.start overlapping_drops in
  let w' := UploadVariant.run UploadVariant.start remove_during_upload in
  let a := UploadVariant.descriptor (image_of "a") in
  let b := UploadVariant.descriptor (image_of "b") in
  UploadVariant.reachable w
  /\ UploadVariant.pending w = []
  /\ UploadVariant.uploadedImages (UploadVariant.component w) = [a; b]
  /\ images (UploadVariant.formValues (UploadVariant.component w)) = Some [b]
  /\ ~ UploadVariant.in_sync (UploadVariant.component w)
  /\ UploadVariant.reachable w'
  /\ UploadVariant.uploadedImages (UploadVariant.component w') = [b]
  /\ images (UploadVariant.formValues (UploadVariant.component w')) = Some [a; b]
  /\ ~ UploadVariant.in_sync (UploadVariant.component w').
Proof.
  intros w w' a b.
  split; [now exists overlapping_drops|].
  split; [reflexivity|].
  split; [reflexivity|].
  split; [reflexivity|].
  split; [unfold UploadVariant.in_sync; cbn; discriminate|].
  split; [now exists remove_during_upload|].
  split; [reflexivity|].
  split; [reflexivity|].
  unfold UploadVariant.in_sync; cbn; discriminate.
Qed.

(** * Further properties of the code *)

(** ** The matcher *)

Lemma test_cls (p : codeunit -> bool) (k : matcher) (s : jsstring) :
  test (cls p k) s = true
  <-> exists c s', s = c :: s' /\ p c = true /\ test k s' = true.
Proof.
  unfold test, cls. split.
  - destruct s as [|c s']; [discriminate|].
    destruct (p c) eqn:Hp; [|discriminate].
    destruct (k s') eqn:Hk; [|discriminate].
    intros _. exists c, s'. now rewrite Hk.
  - intros (c & s' & -> & Hp & Hk). rewrite Hp.
    destruct (k s'); [reflexivity | discriminate].
Qed.

Lemma test_star_here (p : codeunit -> bool) (k : matcher) (s : jsstring) :
  test k s = true -> test (star p k) s = true.
Proof.
  unfold test. destruct s as [|c s']; simpl; [trivial|].
  destruct (p c); [|trivial].
  destruct (star p k s'); trivial.
Qed.

(** Backtracking makes the greedy [p*] complete: it succeeds as soon as
    some split of the input works. *)
Lemma test_star (p : codeunit -> bool) (k : matcher) (s : jsstring) :
  test (star p k) s = true
  <-> exists a b, s = a ++ b /\ forallb p a = true /\ test k b = true.
Proof.
  split.
  - induction s as [|c s' IH].
    + intros H. now exists [], [].
    + unfold test in *. simpl.
      destruct (p c) eqn:Hp.
      * destruct (star p k s') eqn:Hs.
        -- intros _. destruct (IH eq_refl) as (a & b & -> & Ha & Hb).
           exists (c :: a), b. simpl. now rewrite Hp, Ha.
        -- intros H. now exists [], (c :: s').
      * intros H. now exists [], (c :: s').
  - intros (a & b & -> & Ha & Hb).
    induction a as [|c a IH]; simpl.
    + now apply test_star_here.
    + simpl in Ha. apply andb_true_iff in Ha as [Hp Ha].
      specialize (IH Ha). unfold test in *. simpl. rewrite Hp.
      destruct (star p k (a ++ b)); [reflexivity | discriminate].
Qed.

Lemma test_plus (p : codeunit -> bool) (k : matcher) (s : jsstring) :
  test (plus p k) s = true
  <-> exists a b, s = a ++ b /\ a <> [] /\ forallb p a = true /\ test k b = true.
Proof.
  unfold plus. rewrite test_cls. split.
  - intros (c & s' & -> & Hp & Hs).
    apply test_star in Hs as (a & b & -> & Ha & Hb).
    exists (c :: a), b. simpl. rewrite Hp, Ha. repeat split; auto. discriminate.
  - intros (a & b & -> & Hne & Ha & Hb).
    destruct a as [|c a]; [now elim Hne|].
    simpl in Ha. apply andb_true_iff in Ha as [Hp Ha].
    exists c, (a ++ b). repeat split; auto.
    apply test_star. now exists a, b.
Qed.

Lemma test_eos (s : jsstring) : test eos s = true <-> s = [].
Proof. destruct s; unfold test; simpl; split; congruence. Qed.

(** ** Validation *)

Lemma re_email_address_shape :
  forall v : jsstring, test re_email v = true <-> address_shape v.
Proof.
  intros v. unfold re_email, address_shape.
  rewrite test_plus. split.
  - intros (local & r1 & -> & Hl & Hlp & H).
    apply test_cls in H as (c1 & r2 & -> & Hc1 & H).
    apply N.eqb_eq in Hc1. subst c1.
    apply test_plus in H as (domain & r3 & -> & Hd & Hdp & H).
    apply test_cls in H as (c2 & r4 & -> & Hc2 & H).
    apply N.eqb_eq in Hc2. subst c2.
    apply test_cls in H as (t1 & r5 & -> & Ht1 & H).
    apply test_plus in H as (t2 & r6 & -> & Ht2 & Ht2p & H).
    apply test_eos in H. subst r6. rewrite app_nil_r.
    exists local, domain, (t1 :: t2). repeat split; auto.
    + destruct t2; [now elim Ht2 | simpl; lia].
    + simpl. now rewrite Ht1, Ht2p.
  - intros (local & domain & tld & -> & Hl & Hlp & Hd & Hdp & Hlen & Htp).
    exists local, (cu "@" :: domain ++ cu "." :: tld).
    split; [reflexivity|]. split; [exact Hl|]. split; [exact Hlp|].
    apply test_cls. exists (cu "@"), (domain ++ cu "." :: tld).
    split; [reflexivity|]. split; [apply N.eqb_refl|].
    apply test_plus. exists domain, (cu "." :: tld).
    split; [reflexivity|]. split; [exact Hd|]. split; [exact Hdp|].
    apply test_cls. exists (cu "."), tld.
    split; [reflexivity|]. split; [apply N.eqb_refl|].
    destruct tld as [|t1 [|t2 tld]]; simpl in Hlen; try lia.
    simpl in Htp. apply andb_true_iff in Htp as [Ht1 Htp].
    apply test_cls. exists t1, (t2 :: tld).
    split; [reflexivity|]. split; [exact Ht1|].
    apply test_plus. exists (t2 :: tld), []. rewrite app_nil_r.
    split; [reflexivity|]. split; [discriminate|]. split; [exact Htp|reflexivity].
Qed.

Lemma length_rule (r : Rules) (v : jsstring) (req m1 m2 : jsstring) (lo hi : N) :
  required r = Some req -> minLength r = Some (lo, m1) ->
  maxLength r = Some (hi, m2) -> pattern r = None ->
  validateField r v
  = if (N.of_nat (List.length v) =? 0)%N then Some req
    else if (hi <? N.of_nat (List.length v))%N then Some m2
    else if (N.of_nat (List.length v) <? lo)%N then Some m1
    else None.
Proof.
  intros Hreq Hmin Hmax Hpat.
  destruct v as [|c v]; simpl List.length.
  - simpl. now rewrite Hreq.
  - unfold validateField, exceeds_max, exceeds_min, rule_message.
    rewrite Hmin, Hmax, Hpat.
    destruct (N.eqb_spec (N.of_nat (S (List.length v))) 0); [lia|].
    reflexivity.
Qed.

(** X2. The length rules of the name and of the story work on the number
    of code units of the text as typed, with both bounds allowed: an empty
    field gives the "required" message, a text below the lower bound the
    "at least" message, a text above the upper bound the "less than"
    message, and everything from 2 to 100 (name) and from 10 to 5000
    (story) passes, the bounds 100 and 5000 included. *)
Theorem length_rules_are_inclusive :
  forall v : jsstring,
    let n := N.of_nat (List.length v) in
    (n = 0%N ->
       validateField rules_name v = Some (lit "Name is required")
       /\ validateField rules_story v = Some (lit "Story is required"))
    /\ ((0 < n < 2)%N ->
        validateField rules_name v = Some (lit "Name must be at least 2 characters"))
    /\ ((2 <= n <= 100)%N -> validateField rules_name v = None)
    /\ ((100 < n)%N ->
        validateField rules_name v = Some (lit "Name must be less than 100 characters"))
    /\ ((0 < n < 10)%N ->
        validateField rules_story v = Some (lit "Story must be at least 10 characters"))
    /\ ((10 <= n <= 5000)%N -> validateField rules_story v = None)
    /\ ((5000 < n)%N ->
        validateField rules_story v
        = Some (lit "Story must be less than 5000 characters")).
Proof.
  intros v n.
  rewrite (@length_rule rules_name v _ _ _ 2 100 eq_refl eq_refl eq_refl eq_refl).
  rewrite (@length_rule rules_story v _ _ _ 10 5000 eq_refl eq_refl eq_refl eq_refl).
  fold n.
  repeat split; intros;
    destruct (N.eqb_spec n 0); try lia; try reflexivity;
    repeat match goal with
           | |- context [(?a <? ?b)%N] => destruct (N.ltb_spec a b); try lia
           end; reflexivity.
Qed.

Lemma length_rules_are_inclusive_witness :
  validateField rules_name (letters 100) = None
  /\ validateField rules_name (letters 101)
     = Some (lit "Name must be less than 100 characters")
  /\ validateField rules_story (letters 9)
     = Some (lit "Story must be at least 10 characters")
  /\ validateField rules_story [] = Some (lit "Story is required").
Proof.
  split; [|split; [|split]].
  - apply (length_rules_are_inclusive (letters 100)).
    unfold letters. rewrite repeat_length. lia.
  - apply (length_rules_are_inclusive (letters 101)).
    unfold letters. rewrite repeat_length. lia.
  - apply (length_rules_are_inclusive (letters 9)).
    unfold letters. rewrite repeat_length. lia.
  - apply (length_rules_are_inclusive []). reflexivity.
Defined.

Lemma validate_ok_inv (A : Type) (f : FormValues A) :
  isValid (validate f) = true ->
  (2 <= N.of_nat (List.length (name f)) <= 100)%N
  /\ test re_email (email f) = true
  /\ (10 <= N.of_nat (List.length (story f)) <= 5000)%N.
Proof.
  unfold isValid, validate. simpl.
  rewrite (@length_rule rules_name (name f) _ _ _ 2 100 eq_refl eq_refl eq_refl eq_refl).
  rewrite (@length_rule rules_story (story f) _ _ _ 10 5000 eq_refl eq_refl eq_refl eq_refl).
  destruct (N.eqb_spec (N.of_nat (List.length (name f))) 0); [discriminate|].
  destruct (N.ltb_spec 100 (N.of_nat (List.length (name f)))); [discriminate|].
  destruct (N.ltb_spec (N.of_nat (List.length (name f))) 2); [discriminate|].
  destruct (validateField rules_email (email f)) eqn:He; [discriminate|].
  destruct (N.eqb_spec (N.of_nat (List.length (story f))) 0); [discriminate|].
  destruct (N.ltb_spec 5000 (N.of_nat (List.length (story f)))); [discriminate|].
  destruct (N.ltb_spec (N.of_nat (List.length (story f))) 10); [discriminate|].
  intros _. split; [lia|]. split; [|lia].
  unfold validateField in He. destruct (email f) as [|c v]; [discriminate He|].
  cbn [exceeds_max exceeds_min rules_email maxLength minLength pattern] in He.
  destruct (test re_email (c :: v)); [reflexivity | discriminate He].
Qed.

Lemma isValid_noErrors (e : Errors) : isValid e = true -> e = noErrors.
Proof.
  destruct e as [[?|] [?|] [?|]]; simpl; try discriminate. reflexivity.
Qed.

(** X3. [handleSubmit] lets [onSubmit] run exactly when the three fields
    pass their rules; otherwise it records the errors and does nothing
    else: no request, no message, [isSubmitting] untouched, the form and
    the attachments as they were.  In both variants. *)
Theorem submission_is_gated_by_validation :
  forall (now : jsstring) (s : UploadVariant.State) (b : Base64Variant.State),
    let ok (A : Type) (f : FormValues A) :=
      (2 <= N.of_nat (List.length (name f)) <= 100)%N
      /\ test re_email (email f) = true
      /\ (10 <= N.of_nat (List.length (story f)) <= 5000)%N in
    (snd (UploadVariant.handleSubmit now s) <> None <-> ok _ (UploadVariant.formValues s))
    /\ (snd (Base64Variant.handleSubmit now b) <> None <-> ok _ (Base64Variant.formValues b))
    /\ (snd (UploadVariant.handleSubmit now s) = None ->
        fst (UploadVariant.handleSubmit now s)
        = UploadVariant.setErrors (validate (UploadVariant.formValues s)) s
        /\ validate (UploadVariant.formValues s) <> noErrors)
    /\ (snd (Base64Variant.handleSubmit now b) = None ->
        fst (Base64Variant.handleSubmit now b)
        = Base64Variant.setErrors (validate (Base64Variant.formValues b)) b
        /\ validate (Base64Variant.formValues b) <> noErrors).
Proof.
  intros now s b ok.
  unfold UploadVariant.handleSubmit, Base64Variant.handleSubmit,
    Base64Variant.onSubmit_start.
  split; [|split; [|split]].
  - destruct (isValid (validate (UploadVariant.formValues s))) eqn:E; simpl.
    + split; [intros _; now apply validate_ok_inv | discriminate].
    + split; [intros H; now elim H|].
      intros (Hn & He & Hs). rewrite (validate_ok _ Hn He Hs) in E. discriminate E.
  - destruct (isValid (validate (Base64Variant.formValues b))) eqn:E; simpl.
    + split; [intros _; now apply validate_ok_inv|].
      intros _. destruct (Base64Variant.uploadedFiles _); discriminate.
    + split; [intros H; now elim H|].
      intros (Hn & He & Hs). rewrite (validate_ok _ Hn He Hs) in E. discriminate E.
  - destruct (isValid (validate (UploadVariant.formValues s))) eqn:E; simpl;
      [discriminate|].
    intros _. split; [reflexivity|]. intros H. rewrite H in E. discriminate E.
  - destruct (isValid (validate (Base64Variant.formValues b))) eqn:E; simpl.
    + destruct (Base64Variant.uploadedFiles _); discriminate.
    + intros _. split; [reflexivity|]. intros H. rewrite H in E. discriminate E.
Qed.

Lemma submission_is_gated_by_validation_witness :
  snd (UploadVariant.handleSubmit sample_now (filled "Ada")) <> None
  /\ fst (Base64Variant.handleSubmit sample_now (filled_base64 "A"))
     = Base64Variant.setErrors
         (validate (Base64Variant.formValues (filled_base64 "A")))
         (filled_base64 "A").
Proof.
  pose proof (submission_is_gated_by_validation sample_now
                (filled "Ada") (filled_base64 "A")) as (Hu & _ & _ & Hb).
  split.
  - apply (proj2 Hu). split; [simpl; lia|]. split; [reflexivity | simpl; lia].
  - apply Hb. reflexivity.
Defined.

(** ** The sanitizer, continued *)

Lemma subsequence_refl (A : Type) (l : list A) : subsequence l l.
Proof. induction l; constructor; assumption. Qed.

Lemma subsequence_trans (A : Type) (l1 l2 l3 : list A) :
  subsequence l1 l2 -> subsequence l2 l3 -> subsequence l1 l3.
Proof.
  intros H12 H23. revert l1 H12.
  induction H23 as [|x l2 l3 _ IH|x l2 l3 _ IH]; intros l1 H12.
  - exact H12.
  - inversion H12; subst; constructor; apply IH; assumption.
  - constructor. apply IH. exact H12.
Qed.

Lemma subsequence_app_drop_l (A : Type) (a b : list A) : subsequence b (a ++ b).
Proof.
  induction a; simpl; [apply subsequence_refl | constructor; assumption].
Qed.

Lemma subsequence_app_drop_r (A : Type) (a b : list A) : subsequence a (a ++ b).
Proof.
  induction a as [|x a IH]; simpl.
  - induction b; constructor; assumption.
  - constructor. exact IH.
Qed.

Lemma subsequence_length (A : Type) (l l' : list A) :
  subsequence l l' -> List.length l <= List.length l'.
Proof. induction 1; simpl; lia. Qed.

Lemma subsequence_In (A : Type) (l l' : list A) (x : A) :
  subsequence l l' -> In x l -> In x l'.
Proof.
  induction 1 as [|y l l' _ IH|y l l' _ IH]; simpl; intros Hx; auto.
  destruct Hx; auto.
Qed.

Lemma replace_go_subsequence (m : matcher) (s : jsstring) :
  forall skip, subsequence (replace_go m skip s) s.
Proof.
  induction s as [|c s IH]; intros skip; simpl; [constructor|].
  destruct skip as [|n]; [|constructor; apply IH].
  destruct (m (c :: s)) as [[|n]|]; constructor; apply IH.
Qed.

Lemma trim_subsequence (s : jsstring) : subsequence (trim s) s.
Proof.
  unfold trim.
  destruct (trimStart_suffix s) as [ws1 E1].
  destruct (trimEnd_prefix (trimStart s)) as [ws2 E2].
  apply subsequence_trans with (trimStart s).
  - rewrite E2 at 2. apply subsequence_app_drop_r.
  - rewrite E1 at 2. apply subsequence_app_drop_l.
Qed.

(** X4. [sanitizeText] only deletes: its result is the input with some
    code units left out, the others unchanged and in their order; so it is
    never longer than the input and holds no character the input did not
    hold. *)
Theorem sanitizeText_only_deletes :
  forall t : jsstring,
    subsequence (sanitizeText t) t
    /\ List.length (sanitizeText t) <= List.length t
    /\ (forall c, In c (sanitizeText t) -> In c t).
Proof.
  intros t.
  assert (H : subsequence (sanitizeText t) t).
  { unfold sanitizeText, replace_all.
    eapply subsequence_trans; [apply trim_subsequence|].
    eapply subsequence_trans; [apply replace_go_subsequence|].
    eapply subsequence_trans; apply replace_go_subsequence. }
  split; [exact H|]. split; [now apply subsequence_length|].
  intros c. now apply subsequence_In.
Qed.

(** X5. No [<] and no [>] is left in the result of [sanitizeText], for
    every input, and so in the name and the story of the request of either
    variant. *)
Theorem sanitized_text_has_no_angle_bracket :
  forall t : jsstring,
    has_angle (sanitizeText t) = false
    /\ ~ In (cu "<") (sanitizeText t)
    /\ ~ In (cu ">") (sanitizeText t)
    /\ (forall (data : FormValues UploadVariant.Slot) imgs now,
          name data = t ->
          has_angle (p_name (UploadVariant.sanitizedPayload data imgs now)) = false)
    /\ (forall (data : FormValues File) imgs now,
          story data = t ->
          has_angle (p_story (Base64Variant.sanitizedPayload data imgs now)) = false).
Proof.
  intros t.
  pose proof (sanitizeText_no_angle t) as H.
  split; [now apply no_angle_has_angle|].
  unfold no_angle in H. rewrite Forall_forall in H.
  split; [intros Hin; now specialize (H _ Hin)|].
  split; [intros Hin; now specialize (H _ Hin)|].
  split; intros data imgs now <-; simpl; apply no_angle_has_angle;
    apply sanitizeText_no_angle.
Qed.

Lemma sanitized_text_has_no_angle_bracket_witness :
  has_angle
    (p_name (UploadVariant.sanitizedPayload
               (sample_form _ "<<Ada>>") [] sample_now)) = false.
Proof.
  apply (sanitized_text_has_no_angle_bracket (lit "<<Ada>>")).
  reflexivity.
Defined.

Lemma has_angle_no_angle (s : jsstring) : has_angle s = false -> no_angle s.
Proof.
  unfold no_angle. induction s as [|c s IH]; simpl; [constructor|].
  intros H. apply orb_false_iff in H as [Hc Hs]. constructor; auto.
Qed.

(** A text that holds none of the denied patterns and has no white space
    at its ends goes through [sanitizeText] unchanged. *)
Lemma clean_text_is_kept :
  forall t : jsstring,
    has_angle t = false ->
    occurs re_javascript t = false ->
    occurs re_handler t = false ->
    starts_with_space t = false ->
    ends_with_space t = false ->
    sanitizeText t = t.
Proof.
  intros t Ha Hj Hh Hs He. unfold sanitizeText.
  rewrite (replace_all_fixed re_angle t)
    by now apply no_angle_occurs, has_angle_no_angle.
  rewrite (replace_all_fixed _ _ Hj), (replace_all_fixed _ _ Hh).
  now apply trim_fixed.
Qed.

Lemma trimStart_blank (s : jsstring) :
  forallb is_space s = true -> trimStart s = [].
Proof.
  induction s as [|c s IH]; simpl; [reflexivity|].
  intros H. apply andb_true_iff in H as [Hc Hs]. rewrite Hc. auto.
Qed.

Lemma sanitizeText_blank (t : jsstring) :
  forallb is_space t = true -> sanitizeText t = [].
Proof.
  intros H. unfold sanitizeText, replace_all, trim.
  rewrite trimStart_blank; [reflexivity|].
  apply forallb_forall. rewrite forallb_forall in H.
  apply Forall_forall.
  do 3 apply replace_go_Forall. apply Forall_forall. exact H.
Qed.

(** X7. The rules are checked on the text as typed and the scrubbing comes
    after: a story of white space only, 10 to 5000 code units long, passes
    the validation and is sent as the empty string. *)
Theorem blank_story_is_sent_empty :
  forall (now : jsstring) (s : UploadVariant.State),
    let f := UploadVariant.formValues s in
    (2 <= N.of_nat (List.length (name f)) <= 100)%N ->
    test re_email (email f) = true ->
    (10 <= N.of_nat (List.length (story f)) <= 5000)%N ->
    forallb is_space (story f) = true ->
    exists body,
      UploadVariant.requests (fst (UploadVariant.handleSubmit now s))
      = UploadVariant.requests s ++ [UploadVariant.PostSubmitStory body]
      /\ p_story body = [].
Proof.
  intros now s f Hn He Hs Hb.
  unfold UploadVariant.handleSubmit. fold f.
  rewrite (validate_ok f Hn He Hs). simpl.
  eexists. split; [reflexivity|].
  simpl. now apply sanitizeText_blank.
Qed.

Lemma blank_story_is_sent_empty_witness :
  exists body,
    UploadVariant.requests
      (fst (UploadVariant.handleSubmit sample_now
              (UploadVariant.setFormValues (blank_story_form _ 12)
                 UploadVariant.initial)))
    = [UploadVariant.PostSubmitStory body]
    /\ p_story body = [].
Proof.
  apply (blank_story_is_sent_empty sample_now
           (UploadVariant.setFormValues (blank_story_form _ 12)
              UploadVariant.initial));
    [simpl; lia | reflexivity | simpl; lia | reflexivity].
Defined.

(** ** The e-mail address of the request *)

Ltac class_cases :=
  unfold is_local, is_domain, is_alpha, is_word, is_digit, is_upper, is_lower,
    is_space, is_angle, in_range, cu in *;
  simpl N_of_ascii in *;
  repeat match goal with
         | H : (_ || _) = true |- _ => apply orb_true_iff in H; destruct H
         | H : (_ && _) = true |- _ => apply andb_true_iff in H; destruct H
         | H : (_ =? _)%N = true |- _ => apply N.eqb_eq in H
         | H : (_ <=? _)%N = true |- _ => apply N.leb_le in H
         end;
  repeat match goal with
         | |- context [(?a =? ?b)%N] => destruct (N.eqb_spec a b); try lia
         | |- context [(?a <=? ?b)%N] => destruct (N.leb_spec a b); try lia
         end;
  simpl; try reflexivity; try discriminate.

Lemma is_local_not_space (c : codeunit) : is_local c = true -> is_space c = false.
Proof. intros H. class_cases. Qed.

Lemma is_domain_is_local (c : codeunit) : is_domain c = true -> is_local c = true.
Proof.
  unfold is_domain, is_local. intros H.
  apply orb_true_iff in H as [H|H];
    [apply orb_true_iff in H as [H|H];
     [apply orb_true_iff in H as [H|H]|]|];
    rewrite H; repeat rewrite orb_true_r; reflexivity.
Qed.

Lemma is_alpha_is_domain (c : codeunit) : is_alpha c = true -> is_domain c = true.
Proof. unfold is_domain. now intros ->. Qed.

Lemma lower_is_local (c : codeunit) :
  is_local c = true -> is_local (if is_upper c then (c + 32)%N else c) = true.
Proof.
  intros H. destruct (is_upper c) eqn:U; [|exact H].
  clear H. class_cases.
Qed.

Lemma lower_is_domain (c : codeunit) :
  is_domain c = true -> is_domain (if is_upper c then (c + 32)%N else c) = true.
Proof.
  intros H. destruct (is_upper c) eqn:U; [|exact H].
  clear H. class_cases.
Qed.

Lemma lower_is_alpha (c : codeunit) :
  is_alpha c = true -> is_alpha (if is_upper c then (c + 32)%N else c) = true.
Proof.
  intros H. destruct (is_upper c) eqn:U; [|exact H].
  clear H. class_cases.
Qed.

Lemma lower_not_upper (c : codeunit) :
  is_upper (if is_upper c then (c + 32)%N else c) = false.
Proof.
  destruct (is_upper c) eqn:U; [|exact U]. class_cases.
Qed.

Lemma toLowerCase_no_upper (s : jsstring) :
  forallb (fun c => negb (is_upper c)) (toLowerCase s) = true.
Proof.
  unfold toLowerCase. induction s as [|c s IH]; simpl; [reflexivity|].
  apply andb_true_iff. split; [|exact IH].
  apply negb_true_iff, lower_not_upper.
Qed.

Lemma toLowerCase_idempotent (s : jsstring) :
  toLowerCase (toLowerCase s) = toLowerCase s.
Proof.
  unfold toLowerCase. rewrite map_map. apply map_ext. intros c.
  now rewrite lower_not_upper.
Qed.

Lemma forallb_map_lower (p : codeunit -> bool) (s : jsstring) :
  (forall c, p c = true -> p (if is_upper c then (c + 32)%N else c) = true) ->
  forallb p s = true -> forallb p (toLowerCase s) = true.
Proof.
  intros Hp. unfold toLowerCase. induction s as [|c s IH]; simpl; [trivial|].
  intros H. apply andb_true_iff in H as [Hc Hs].
  apply andb_true_iff. split; [apply Hp, Hc | apply IH, Hs].
Qed.

Lemma trim_no_space (s : jsstring) :
  (forall c, In c s -> is_space c = false) -> trim s = s.
Proof.
  intros H. apply trim_fixed.
  - destruct s as [|c s]; [reflexivity|]. simpl. apply H. now left.
  - unfold ends_with_space. destruct (rev s) as [|c r] eqn:E; [reflexivity|].
    simpl. apply H. apply in_rev. rewrite E. now left.
Qed.

Lemma address_shape_no_space (v : jsstring) :
  address_shape v -> forall c, In c v -> is_space c = false.
Proof.
  intros (local & domain & tld & -> & _ & Hl & _ & Hd & _ & Ht) c Hin.
  rewrite forallb_forall in Hl, Hd, Ht.
  apply in_app_or in Hin as [Hin|[<-|Hin]].
  - now apply is_local_not_space, Hl.
  - reflexivity.
  - apply in_app_or in Hin as [Hin|[<-|Hin]].
    + now apply is_local_not_space, is_domain_is_local, Hd.
    + reflexivity.
    + now apply is_local_not_space, is_domain_is_local, is_alpha_is_domain, Ht.
Qed.

Lemma address_shape_lower (v : jsstring) :
  address_shape v -> address_shape (toLowerCase v).
Proof.
  intros (local & domain & tld & -> & Hne1 & Hl & Hne2 & Hd & Hlen & Ht).
  exists (toLowerCase local), (toLowerCase domain), (toLowerCase tld).
  split.
  { unfold toLowerCase. rewrite map_app. simpl. rewrite map_app. reflexivity. }
  split; [destruct local; [now elim Hne1 | discriminate]|].
  split; [apply forallb_map_lower; [apply lower_is_local | exact Hl]|].
  split; [destruct domain; [now elim Hne2 | discriminate]|].
  split; [apply forallb_map_lower; [apply lower_is_domain | exact Hd]|].
  split; [unfold toLowerCase; now rewrite length_map|].
  apply forallb_map_lower; [apply lower_is_alpha | exact Ht].
Qed.

Lemma is_local_ascii (c : codeunit) : is_local c = true -> (c < 128)%N.
Proof. intros H. class_cases; lia. Qed.

(** X1. The pattern of the e-mail field accepts exactly the addresses of
    the shape [local@domain.tld]: one or more of letters, digits and
    [._%+-], an [@], one or more of letters, digits and [.-], a dot, and
    two letters or more up to the end.  So an accepted address has an
    [@], six code units or more, no white space and ASCII characters
    only. *)
Theorem email_pattern_accepts_address_shape :
  forall v : jsstring,
    (test re_email v = true <-> address_shape v)
    /\ (test re_email v = true ->
        In (cu "@") v
        /\ 6 <= List.length v
        /\ (forall c, In c v -> is_space c = false /\ (c < 128)%N)).
Proof.
  intros v. split; [apply re_email_address_shape|].
  intros H. apply re_email_address_shape in H.
  pose proof (address_shape_no_space H) as Hsp.
  destruct H as (local & domain & tld & -> & Hl & Hlp & Hd & Hdp & Hlen & Htp).
  split; [apply in_or_app; right; now left|].
  split.
  { rewrite length_app. simpl. rewrite length_app. simpl.
    destruct local; [now elim Hl|]. destruct domain; [now elim Hd|]. simpl. lia. }
  intros c Hin. split; [now apply Hsp|].
  rewrite forallb_forall in Hlp, Hdp, Htp.
  apply in_app_or in Hin as [Hin|[<-|Hin]].
  - now apply is_local_ascii, Hlp.
  - reflexivity.
  - apply in_app_or in Hin as [Hin|[<-|Hin]].
    + now apply is_local_ascii, is_domain_is_local, Hdp.
    + reflexivity.
    + now apply is_local_ascii, is_domain_is_local, is_alpha_is_domain, Htp.
Qed.

Lemma email_pattern_accepts_address_shape_witness :
  test re_email (lit "ada.l@mail.example.org") = true
  /\ In (cu "@") (lit "a@b.cd").
Proof.
  split.
  - apply (proj2 (proj1 (email_pattern_accepts_address_shape
                           (lit "ada.l@mail.example.org")))).
    exists (lit "ada.l"), (lit "mail.example"), (lit "org").
    repeat split; try reflexivity; try discriminate. simpl. lia.
  - apply (proj2 (email_pattern_accepts_address_shape (lit "a@b.cd"))).
    reflexivity.
Defined.

(** X8. For an address that passed the pattern of the e-mail field, the
    address put in the request is that address with its ASCII capitals in
    lower case: [trim] finds nothing to remove, the length is kept, the
    result still passes the pattern and normalizing it again changes
    nothing. *)
Theorem valid_address_is_lowercased :
  forall (data : FormValues UploadVariant.Slot) imgs now,
    test re_email (email data) = true ->
    let e := p_email (UploadVariant.sanitizedPayload data imgs now) in
    e = toLowerCase (email data)
    /\ List.length e = List.length (email data)
    /\ test re_email e = true
    /\ forallb (fun c => negb (is_upper c)) e = true
    /\ normalizeEmail e = e.
Proof.
  intros data imgs now Hv e. subst e. simpl.
  apply re_email_address_shape in Hv.
  assert (Ht : trim (email data) = email data)
    by (apply trim_no_space, address_shape_no_space, Hv).
  rewrite Ht.
  pose proof (address_shape_lower Hv) as Hl.
  split; [reflexivity|].
  split; [unfold toLowerCase; now rewrite length_map|].
  split; [now apply re_email_address_shape|].
  split; [apply toLowerCase_no_upper|].
  unfold normalizeEmail.
  rewrite trim_no_space by exact (address_shape_no_space Hl).
  apply toLowerCase_idempotent.
Qed.

Lemma valid_address_is_lowercased_witness :
  p_email (UploadVariant.sanitizedPayload
             {| name := lit "Ada"; email := lit "Ada.L@Example.ORG";
                story := lit "A story of ten characters or more.";
                images := None |} [] sample_now)
  = lit "ada.l@example.org".
Proof.
  apply (valid_address_is_lowercased
           {| name := lit "Ada"; email := lit "Ada.L@Example.ORG";
              story := lit "A story of ten characters or more.";
              images := None |} [] sample_now).
  reflexivity.
Defined.

(** ** Attachments, continued *)

Lemma filter_index_from_inside (A : Type) (l : list A) :
  forall (k i : nat),
    i < List.length l ->
    filter_index_from k (Z.of_nat (k + i)) l = firstn i l ++ skipn (S i) l.
Proof.
  induction l as [|x l IH]; intros k i Hi; simpl in Hi; [lia|].
  simpl filter_index_from.
  destruct i as [|i].
  - rewrite Nat.add_0_r, Z.eqb_refl. simpl.
    apply filter_index_from_outside. lia.
  - destruct (Z.eqb_spec (Z.of_nat k) (Z.of_nat (k + S i))) as [E|_]; [lia|].
    simpl. f_equal.
    replace (k + S i) with (S k + i) by lia.
    apply IH. lia.
Qed.

Lemma filter_index_inside (A : Type) (l : list A) (index : Z) :
  (0 <= index < Z.of_nat (List.length l))%Z ->
  filter_index index l
  = firstn (Z.to_nat index) l ++ skipn (S (Z.to_nat index)) l.
Proof.
  intros H. unfold filter_index.
  rewrite <- (Z2Nat.id index) at 1 by lia.
  apply (filter_index_from_inside l 0). lia.
Qed.

(** X9. Removing at a position of the attachment list takes out the entry
    at that position and no other: the entries before and behind it stay,
    in their order, the list is one shorter, and the form value under
    'images' is set to the same list.  In both variants. *)
Theorem remove_inside_takes_one :
  forall index : Z,
    (forall s,
        (0 <= index < Z.of_nat (List.length (UploadVariant.uploadedImages s)))%Z ->
        let l := UploadVariant.uploadedImages s in
        let s' := UploadVariant.removeImage index s in
        UploadVariant.uploadedImages s'
        = firstn (Z.to_nat index) l ++ skipn (S (Z.to_nat index)) l
        /\ S (List.length (UploadVariant.uploadedImages s')) = List.length l
        /\ images (UploadVariant.formValues s')
           = Some (UploadVariant.uploadedImages s'))
    /\ (forall s,
        (0 <= index < Z.of_nat (List.length (Base64Variant.uploadedFiles s)))%Z ->
        let l := Base64Variant.uploadedFiles s in
        let s' := Base64Variant.removeFile index s in
        Base64Variant.uploadedFiles s'
        = firstn (Z.to_nat index) l ++ skipn (S (Z.to_nat index)) l
        /\ S (List.length (Base64Variant.uploadedFiles s')) = List.length l
        /\ images (Base64Variant.formValues s')
           = Some (Base64Variant.uploadedFiles s')).
Proof.
  intros index. split; intros s H; cbn;
    rewrite (filter_index_inside _ H);
    (split; [reflexivity|]); (split; [|reflexivity]);
    rewrite length_app, length_firstn, length_skipn; lia.
Qed.

Lemma remove_inside_takes_one_witness :
  UploadVariant.uploadedImages (UploadVariant.removeImage 0 (filled "Ada")) = []
  /\ Base64Variant.uploadedFiles
       (Base64Variant.removeFile 1
          (Base64Variant.handleFiles [png "b.png"; png "c.png"] (filled_base64 "Ada")))
     = [png "a.png"; png "c.png"].
Proof.
  split.
  - apply (proj1 (remove_inside_takes_one 0) (filled "Ada")). simpl. lia.
  - apply (proj2 (remove_inside_takes_one 1)
             (Base64Variant.handleFiles [png "b.png"; png "c.png"]
                (filled_base64 "Ada"))).
    simpl. lia.
Defined.

Lemma no_image_files (files : list File) :
  (forall f, In f files -> isImageFile f = false) -> imageFilesOf files = [].
Proof.
  unfold imageFilesOf. induction files as [|f files IH]; intros H; simpl.
  - reflexivity.
  - rewrite (H f) by now left. apply IH. intros g Hg. apply H. now right.
Qed.

(** X10. Files of which none has a type starting with [image/] (an empty
    selection among them) are ignored altogether: nothing is uploaded or
    appended, the upload indicator stays off, no handler is left waiting
    and the form value under 'images' is not written.  In both variants. *)
Theorem files_without_image_are_ignored :
  forall files : list File,
    (forall f, In f files -> startsWith (file_type f) (lit "image/") = false) ->
    (forall s, UploadVariant.handleFiles_start files s = (s, None))
    /\ (forall s answers, UploadVariant.handleFiles files answers s = s)
    /\ (forall s, Base64Variant.handleFiles files s = s)
    /\ (forall w,
          UploadVariant.pending (UploadVariant.step w (UploadVariant.Drop files))
          = UploadVariant.pending w
          /\ UploadVariant.component (UploadVariant.step w (UploadVariant.Drop files))
             = UploadVariant.setDragActive false (UploadVariant.component w)).
Proof.
  intros files H.
  pose proof (no_image_files files H) as E.
  unfold UploadVariant.handleFiles, UploadVariant.step, UploadVariant.spawn,
    UploadVariant.handleDrop, UploadVariant.handleFiles_start,
    Base64Variant.handleFiles.
  rewrite E. repeat split.
Qed.

Lemma files_without_image_are_ignored_witness :
  Base64Variant.handleFiles [pdf "notes.pdf"] (filled_base64 "Ada")
  = filled_base64 "Ada"
  /\ UploadVariant.handleFiles_start [] UploadVariant.initial
     = (UploadVariant.initial, None).
Proof.
  split.
  - apply (files_without_image_are_ignored [pdf "notes.pdf"]).
    intros f [<-|[]]. reflexivity.
  - apply (files_without_image_are_ignored []). intros f [].
Defined.

(** ** Uploads, continued *)

Lemma upload_log (r : UploadVariant.UploadResponse) :
  snd (UploadVariant.uploadImageToCloudflare r)
  = if upload_failed r then [log_upload_image] else [].
Proof.
  destruct r as [|[] [result|]]; simpl; try reflexivity.
  destruct (UploadVariant.success result); reflexivity.
Qed.

Lemma upload_logs (answers : list UploadVariant.UploadResponse) :
  List.concat (map snd (map UploadVariant.uploadImageToCloudflare answers))
  = repeat log_upload_image (List.length (filter upload_failed answers)).
Proof.
  induction answers as [|r answers IH]; simpl; [reflexivity|].
  rewrite upload_log, IH. destruct (upload_failed r); reflexivity.
Qed.

(** An answer is of exactly one of three kinds. *)
Lemma upload_kinds (r : UploadVariant.UploadResponse) :
  (succeeded r = true /\ upload_failed r = false /\ upload_null r = false)
  \/ (succeeded r = false /\ upload_failed r = true /\ upload_null r = false)
  \/ (succeeded r = false /\ upload_failed r = false /\ upload_null r = true).
Proof.
  destruct r as [|[] [result|]]; simpl; auto.
  destruct (UploadVariant.success result), (UploadVariant.image result);
    simpl; auto.
Qed.

Lemma upload_kinds_length (answers : list UploadVariant.UploadResponse) :
  List.length (filter succeeded answers)
  + List.length (filter upload_failed answers)
  + List.length (filter upload_null answers)
  = List.length answers.
Proof.
  induction answers as [|r answers IH]; simpl; [reflexivity|].
  destruct (upload_kinds r) as [(-> & -> & ->)|[(-> & -> & ->)|(-> & -> & ->)]];
    simpl; lia.
Qed.

(** X11. When a batch of uploads is answered, every answer is accounted
    for once: it adds one entry to the attachment list, or it failed and
    adds one ["Error uploading image:"] line to the console, or it is
    [{success: true, image: null}] and adds neither.  A failed upload
    shows nothing to the user: [submitMessage] is left as it was, whatever
    the answers; the upload indicator is switched off and no request is
    made. *)
Theorem every_upload_is_accounted_for :
  forall (captured : list UploadVariant.Slot)
         (answers : list UploadVariant.UploadResponse) (s : UploadVariant.State),
    let s' := UploadVariant.handleFiles_resume captured answers s in
    let failed := List.length (filter upload_failed answers) in
    let nulls := List.length (filter upload_null answers) in
    UploadVariant.console s'
    = UploadVariant.console s ++ repeat log_upload_image failed
    /\ List.length (UploadVariant.uploadedImages s') + failed + nulls
       = List.length (UploadVariant.uploadedImages s) + List.length answers
    /\ (forall r,
          (succeeded r = true /\ upload_failed r = false /\ upload_null r = false)
          \/ (succeeded r = false /\ upload_failed r = true /\ upload_null r = false)
          \/ (succeeded r = false /\ upload_failed r = false /\ upload_null r = true))
    /\ (forall r,
          (fst (UploadVariant.uploadImageToCloudflare r) <> None <-> succeeded r = true)
          /\ (snd (UploadVariant.uploadImageToCloudflare r) <> [] <-> upload_failed r = true))
    /\ UploadVariant.submitMessage s' = UploadVariant.submitMessage s
    /\ UploadVariant.uploadingImages s' = false
    /\ UploadVariant.requests s' = UploadVariant.requests s
    /\ UploadVariant.isSubmitting s' = UploadVariant.isSubmitting s.
Proof.
  intros captured answers s s' failed nulls.
  split; [subst s' failed; cbn; now rewrite upload_logs|].
  split.
  { subst s' failed nulls. rewrite handleFiles_resume_images.
    rewrite length_app, length_map.
    pose proof (upload_kinds_length answers). lia. }
  split; [exact upload_kinds|].
  split; [|repeat split].
  intros r. rewrite upload_result, upload_log.
  destruct (succeeded r), (upload_failed r); split; split;
    first [discriminate | reflexivity | intros H; now elim H | intros _; discriminate].
Qed.

Lemma every_upload_is_accounted_for_witness :
  fst (UploadVariant.uploadImageToCloudflare upload_ok_null_image) = None
  /\ snd (UploadVariant.uploadImageToCloudflare upload_ok_null_image) = []
  /\ snd (UploadVariant.uploadImageToCloudflare upload_refused) <> [].
Proof.
  pose proof (every_upload_is_accounted_for [] [] UploadVariant.initial)
    as (_ & _ & _ & H & _).
  split; [|split].
  - destruct (fst (UploadVariant.uploadImageToCloudflare upload_ok_null_image)) eqn:E;
      [|reflexivity].
    assert (Hs : succeeded upload_ok_null_image = true)
      by (apply (proj1 (H upload_ok_null_image)); rewrite E; discriminate).
    discriminate Hs.
  - destruct (snd (UploadVariant.uploadImageToCloudflare upload_ok_null_image)) eqn:E;
      [reflexivity|].
    assert (Hs : upload_failed upload_ok_null_image = true)
      by (apply (proj2 (H upload_ok_null_image)); rewrite E; discriminate).
    discriminate Hs.
  - apply (proj2 (H upload_refused)). reflexivity.
Defined.

(** ** Reading the buffered files *)

Lemma promise_all_None (A : Type) (l : list (option A)) :
  promise_all l = None <-> In None l.
Proof.
  induction l as [|[a|] l IH]; simpl.
  - split; [discriminate | intros []].
  - destruct (promise_all l).
    + split; [discriminate|]. intros [H|H]; [discriminate|].
      apply IH in H. discriminate H.
    + split; [intros _; right; now apply IH | reflexivity].
  - split; [now left | reflexivity].
Qed.

Lemma promise_all_Some (A : Type) (l : list (option A)) (r : list A) :
  promise_all l = Some r <-> l = map Some r.
Proof.
  revert r. induction l as [|[a|] l IH]; intros r; simpl.
  - split; [intros [= <-]; reflexivity | now destruct r].
  - destruct (promise_all l) as [r'|].
    + split.
      * intros [= <-]. simpl. f_equal. now apply IH.
      * destruct r as [|b r]; [discriminate|]. intros [= <- H].
        apply IH in H. congruence.
    + split; [discriminate|].
      destruct r as [|b r]; [discriminate|]. intros [= _ H].
      apply IH in H. discriminate.
  - split; [discriminate | now destruct r].
Qed.

Lemma imageDataOf_None reader files :
  Base64Variant.imageDataOf reader files = None
  <-> exists f, In f files /\ reader f = None.
Proof.
  unfold Base64Variant.imageDataOf, Base64Variant.convertToBase64.
  rewrite promise_all_None, in_map_iff. split.
  - intros (f & Hf & Hin). exists f. split; [exact Hin|].
    destruct (reader f); [discriminate | reflexivity].
  - intros (f & Hin & Hf). exists f. rewrite Hf. now split.
Qed.

Lemma imageDataOf_Some reader files l :
  Base64Variant.imageDataOf reader files = Some l ->
  map Base64Variant.img_name l = map file_name files
  /\ map Base64Variant.img_type l = map file_type files
  /\ map Base64Variant.img_size l = map file_size files
  /\ map (fun d => Some (Base64Variant.img_data d)) l = map reader files.
Proof.
  unfold Base64Variant.imageDataOf, Base64Variant.convertToBase64.
  rewrite promise_all_Some. revert l.
  induction files as [|f files IH]; intros [|d l]; simpl; try discriminate.
  - repeat split.
  - destruct (reader f) as [b|] eqn:Hf; simpl; [|discriminate].
    intros [= <- H]. destruct (IH _ H) as (H1 & H2 & H3 & H4). simpl.
    now rewrite H1, H2, H3, H4.
Qed.

(** X12. In the buffering variant [onSubmit] reads every buffered file
    before it sends anything.  If one file cannot be read, no request is
    made at all: the error message is shown and the form and the files are
    kept, whatever the server would have answered.  If all can be read,
    one request is made whose [images] has one entry per file, in the
    order of the files, with the name, type and size of the file and the
    data read from it. *)
Theorem unreadable_file_stops_submission :
  forall data now reader r (s : Base64Variant.State),
    let files := Base64Variant.uploadedFiles s in
    let s' := Base64Variant.onSubmit data now reader r s in
    ((exists f, In f files /\ reader f = None) ->
       Base64Variant.requests s' = Base64Variant.requests s
       /\ Base64Variant.submitMessage s' = msg_submit_error
       /\ Base64Variant.console s' = Base64Variant.console s ++ [log_submission]
       /\ Base64Variant.uploadedFiles s' = files
       /\ Base64Variant.formValues s' = Base64Variant.formValues s
       /\ Base64Variant.isSubmitting s' = false)
    /\ ((forall f, In f files -> reader f <> None) ->
        exists body,
          Base64Variant.requests s'
          = Base64Variant.requests s ++ [Base64Variant.PostSubmitStory body]
          /\ map Base64Variant.img_name (p_images body) = map file_name files
          /\ map Base64Variant.img_type (p_images body) = map file_type files
          /\ map Base64Variant.img_size (p_images body) = map file_size files
          /\ map (fun d => Some (Base64Variant.img_data d)) (p_images body)
             = map reader files).
Proof.
  intros data now reader r s files s'. subst files s'.
  unfold Base64Variant.onSubmit, Base64Variant.onSubmit_start.
  destruct (Base64Variant.uploadedFiles s) as [|f l] eqn:E.
  - split; [intros (f & [] & _)|].
    intros _. eexists.
    split; [destruct r as [|[] []]; reflexivity|]. repeat split.
  - unfold Base64Variant.onSubmit_read.
    destruct (Base64Variant.imageDataOf reader (f :: l)) as [d|] eqn:D.
    + split.
      * intros Hf. apply imageDataOf_None in Hf. congruence.
      * intros _. eexists.
        split; [destruct r as [|[] []]; reflexivity|].
        simpl p_images. now apply imageDataOf_Some.
    + split.
      * intros _. cbn. rewrite ?E. repeat split.
      * intros Hall. apply imageDataOf_None in D as (g & Hin & Hg).
        now elim (Hall g Hin).
Qed.

Lemma unreadable_file_stops_submission_witness :
  Base64Variant.requests
    (Base64Variant.onSubmit (sample_form _ "Ada") sample_now sample_reader
       (SubmitHttp true true)
       (Base64Variant.handleFiles [png "a.png"; empty_png] Base64Variant.initial))
  = []
  /\ exists body,
       Base64Variant.requests
         (Base64Variant.onSubmit (sample_form _ "Ada") sample_now sample_reader
            (SubmitHttp true true) (filled_base64 "Ada"))
       = [Base64Variant.PostSubmitStory body]
       /\ map Base64Variant.img_name (p_images body) = [lit "a.png"].
Proof.
  split.
  - apply (proj1 (unreadable_file_stops_submission (sample_form _ "Ada")
                    sample_now sample_reader (SubmitHttp true true)
                    (Base64Variant.handleFiles [png "a.png"; empty_png]
                       Base64Variant.initial))).
    exists empty_png. split; [simpl; auto | reflexivity].
  - destruct (proj2 (unreadable_file_stops_submission (sample_form _ "Ada")
                       sample_now sample_reader (SubmitHttp true true)
                       (filled_base64 "Ada")))
      as (body & Hreq & Hname & _).
    + intros f [<-|[]]. discriminate.
    + exists body. split; [exact Hreq | exact Hname].
Defined.

(** ** The attachment list and the form value, continued *)

Lemma base64_reachable_in_sync_witness :
  Base64Variant.in_sync
    (Base64Variant.component
       (Base64Variant.run Base64Variant.start buffering_session)).
Proof.
  apply base64_reachable_in_sync. exists buffering_session. reflexivity.
Defined.

Lemma upload_step_in_sync (w : UploadVariant.World) (e : UploadVariant.Event) :
  (forall k answers, e <> UploadVariant.UploadsSettled k answers) ->
  UploadVariant.in_sync (UploadVariant.component w) ->
  UploadVariant.in_sync (UploadVariant.component (UploadVariant.step w e)).
Proof.
  unfold UploadVariant.in_sync. intros He H.
  destruct e as [fld v|files|k answers|index|now|k r|submitted]; simpl;
    [| | | | | |destruct (UploadVariant.submitMessage (UploadVariant.component w));
                 [exact H|];
                 destruct submitted as [now|]; [|exact H];
                 unfold UploadVariant.handleSubmit;
                 destruct (isValid _); exact H].
  - destruct fld; exact H.
  - unfold UploadVariant.handleDrop, UploadVariant.handleFiles_start.
    destruct (imageFilesOf files); exact H.
  - now elim (He k answers).
  - reflexivity.
  - destruct (UploadVariant.isSubmitting _ || UploadVariant.uploadingImages _);
      [exact H|].
    unfold UploadVariant.handleSubmit.
    destruct (isValid _); exact H.
  - destruct (nth_error (UploadVariant.pending w) k) as [[captured files|]|];
      try exact H.
    now apply upload_onSubmit_resume_in_sync.
Qed.

(** X14. In the uploading variant the attachment list and the form value
    under 'images' are in step after a batch of uploads is answered
    exactly when the list is still the one [handleFiles] saw when the
    batch was sent; every other turn of the event loop (typing, a drop, a
    removal, a submission and its answer, a click on the delete button of
    the notification) keeps them in step. *)
Theorem sync_is_lost_only_by_a_stale_batch :
  (forall captured answers (s : UploadVariant.State),
      UploadVariant.in_sync (UploadVariant.handleFiles_resume captured answers s)
      <-> captured = UploadVariant.uploadedImages s)
  /\ (forall (w : UploadVariant.World) (e : UploadVariant.Event),
      (forall k answers, e <> UploadVariant.UploadsSettled k answers) ->
      UploadVariant.in_sync (UploadVariant.component w) ->
      UploadVariant.in_sync (UploadVariant.component (UploadVariant.step w e))).
Proof.
  split; [|exact upload_step_in_sync].
  intros captured answers s. unfold UploadVariant.in_sync, imagesValue.
  rewrite handleFiles_resume_value, handleFiles_resume_images.
  split; [apply app_inv_tail | now intros ->].
Qed.

Lemma sync_is_lost_only_by_a_stale_batch_witness :
  UploadVariant.in_sync
    (UploadVariant.handleFiles_resume [] [upload_ok "a"] UploadVariant.initial)
  /\ UploadVariant.in_sync
       (UploadVariant.component
          (UploadVariant.step UploadVariant.start (UploadVariant.Remove 3))).
Proof.
  destruct sync_is_lost_only_by_a_stale_batch as [Hb Hs].
  split.
  - apply (proj2 (Hb [] [upload_ok "a"] UploadVariant.initial)). reflexivity.
  - apply (Hs UploadVariant.start (UploadVariant.Remove 3)).
    + intros k answers. discriminate.
    + reflexivity.
Defined.

(** ** Handlers in flight *)

Lemma remove_nth_filter_length (A : Type) (p : A -> bool) (l : list A) :
  forall k x,
    nth_error l k = Some x ->
    List.length (filter p l)
    = List.length (filter p (remove_nth k l)) + (if p x then 1 else 0).
Proof.
  induction l as [|y l IH]; intros [|k] x; simpl; try discriminate.
  - intros [= ->]. destruct (p x); simpl; lia.
  - intros H. specialize (IH _ _ H). destruct (p y); simpl; lia.
Qed.

Lemma remove_nth_In (A : Type) (l : list A) :
  forall k x y,
    nth_error l k = Some x -> In y l -> y <> x -> In y (remove_nth k l).
Proof.
  induction l as [|z l IH]; intros [|k] x y; simpl; try discriminate.
  - intros [= ->] [->|H] Hne; [now elim Hne | exact H].
  - intros Hk [->|H] Hne; [now left | right; eapply IH; eauto].
Qed.

Lemma handleSubmit_flags (now : jsstring) (w : UploadVariant.World)
    (s : UploadVariant.State) :
  UploadVariant.isSubmitting s = false ->
  UploadVariant.isSubmitting (UploadVariant.component w) = false ->
  UploadVariant.uploadingImages s
  = UploadVariant.uploadingImages (UploadVariant.component w) ->
  flags_follow w ->
  flags_follow (UploadVariant.spawn w (UploadVariant.handleSubmit now s)).
Proof.
  unfold flags_follow. intros Es Ew Eu (Hs & Hu & Hm).
  rewrite Ew in Hs.
  unfold UploadVariant.handleSubmit, UploadVariant.spawn.
  destruct (isValid _); simpl.
  - rewrite filter_app, length_app, Hs. simpl.
    split; [reflexivity|]. split; [|reflexivity].
    rewrite Eu. intros H. destruct (Hu H) as (captured & files & Hin).
    exists captured, files. apply in_or_app. now left.
  - rewrite Es, Eu. split; [exact Hs|]. split; [exact Hu | discriminate].
Qed.

Lemma upload_step_flags (w : UploadVariant.World) (e : UploadVariant.Event) :
  flags_follow w -> flags_follow (UploadVariant.step w e).
Proof.
  intros Hw. pose proof Hw as (Hs & Hu & Hm).
  destruct e as [fld v|files|k answers|index|now|k r|submitted]; simpl.
  - exact Hw.
  - unfold UploadVariant.handleDrop, UploadVariant.handleFiles_start.
    destruct (imageFilesOf files) as [|f l]; [exact Hw|].
    unfold flags_follow. simpl.
    rewrite filter_app, length_app. simpl.
    split; [lia|]. split; [|exact Hm].
    intros _. eexists _, _. apply in_or_app. right. now left.
  - destruct (nth_error (UploadVariant.pending w) k) as [[captured files|]|] eqn:E;
      try exact Hw.
    destruct (List.length answers =? List.length files); [|exact Hw].
    unfold flags_follow. simpl.
    split; [|split; [discriminate | exact Hm]].
    rewrite (remove_nth_filter_length isSubmitTask _ _ E) in Hs. simpl in Hs. lia.
  - exact Hw.
  - destruct (UploadVariant.isSubmitting (UploadVariant.component w)) eqn:Es;
      simpl; [exact Hw|].
    destruct (UploadVariant.uploadingImages (UploadVariant.component w)) eqn:Eu;
      simpl; [exact Hw|].
    apply handleSubmit_flags; [exact Es | exact Es | reflexivity | exact Hw].
  - destruct (nth_error (UploadVariant.pending w) k) as [[captured files|]|] eqn:E;
      try exact Hw.
    unfold flags_follow.
    cbn [UploadVariant.component UploadVariant.pending].
    rewrite (remove_nth_filter_length isSubmitTask _ _ E) in Hs. simpl in Hs.
    assert (Hr : UploadVariant.isSubmitting (UploadVariant.onSubmit_resume r
                   (UploadVariant.component w)) = false)
      by (destruct r as [|[] []]; reflexivity).
    assert (Hk : UploadVariant.uploadingImages (UploadVariant.onSubmit_resume r
                   (UploadVariant.component w))
                 = UploadVariant.uploadingImages (UploadVariant.component w))
      by (destruct r as [|[] []]; reflexivity).
    rewrite Hr, Hk. split; [|split; [|discriminate]].
    + destruct (UploadVariant.isSubmitting (UploadVariant.component w)); lia.
    + intros H. destruct (Hu H) as (captured & files & Hin).
      exists captured, files.
      eapply remove_nth_In; [exact E | exact Hin | discriminate].
  - destruct (UploadVariant.submitMessage (UploadVariant.component w))
      as [|c m] eqn:Em; [exact Hw|].
    assert (Es : UploadVariant.isSubmitting (UploadVariant.component w) = false).
    { destruct (UploadVariant.isSubmitting (UploadVariant.component w));
        [|reflexivity].
      specialize (Hm eq_refl). discriminate Hm. }
    destruct submitted as [now|].
    + apply handleSubmit_flags; [exact Es | exact Es | reflexivity | exact Hw].
    + unfold flags_follow. simpl. rewrite Es in *.
      split; [exact Hs|]. split; [exact Hu | discriminate].
Qed.

Lemma upload_run_flags (es : list UploadVariant.Event) :
  forall w, flags_follow w -> flags_follow (UploadVariant.run w es).
Proof.
  unfold UploadVariant.run.
  induction es as [|e es IH]; intros w H; simpl; [exact H|].
  apply IH, upload_step_flags, H.
Qed.

(** X15. In the uploading variant, in every state that typing, drops,
    removals, presses of the submit button, clicks on the delete button of
    the notification (which submit the form too) and arriving answers lead
    to:
    exactly one [onSubmit] is waiting for its answer when [isSubmitting] is
    on and none when it is off, so a second submission is never started
    before the first is answered; and when [uploadingImages] is on a batch
    of uploads is waiting, so neither flag stays on with nothing left to
    switch it off.  While a submission waits the button is disabled and
    reads "Submitting...". *)
Theorem upload_flags_follow_the_handlers :
  forall w : UploadVariant.World,
    UploadVariant.reachable w ->
    let s := UploadVariant.component w in
    List.length (filter isSubmitTask (UploadVariant.pending w))
    = (if UploadVariant.isSubmitting s then 1 else 0)
    /\ (UploadVariant.uploadingImages s = true ->
        exists captured files,
          In (UploadVariant.UploadTask captured files) (UploadVariant.pending w))
    /\ (In UploadVariant.SubmitTask (UploadVariant.pending w) ->
        btn_disabled (upload_submitButton s) = true
        /\ btn_label (upload_submitButton s) = lit "Submitting...").
Proof.
  intros w [es <-] s. subst s.
  destruct (upload_run_flags es (w := UploadVariant.start)) as (Hs & Hu & _);
    [split; [reflexivity | split; discriminate]|].
  split; [exact Hs|]. split; [exact Hu|].
  intros Hin. unfold upload_submitButton. simpl.
  destruct (UploadVariant.isSubmitting _); [now split|].
  exfalso.
  assert (Hf : In UploadVariant.SubmitTask
                 (filter isSubmitTask
                    (UploadVariant.pending (UploadVariant.run UploadVariant.start es))))
    by (apply filter_In; now split).
  destruct (filter isSubmitTask _); [exact Hf | discriminate Hs].
Qed.

Lemma upload_flags_follow_the_handlers_witness :
  btn_label (upload_submitButton
               (UploadVariant.component
                  (UploadVariant.run UploadVariant.start uploading_session)))
  = lit "Submitting...".
Proof.
  apply (upload_flags_follow_the_handlers
           (w := UploadVariant.run UploadVariant.start uploading_session)).
  - exists uploading_session. reflexivity.
  - simpl. auto.
Defined.

Lemma base64_step_one_submission (w : Base64Variant.World) (e : Base64Variant.Event) :
  one_submission w -> one_submission (Base64Variant.step w e).
Proof.
  unfold one_submission. intros H.
  destruct e as [fld v|files|index|now|k reader now|k r|]; simpl;
    [| | | | | |exact H].
  - exact H.
  - unfold Base64Variant.handleDrop, Base64Variant.handleFiles.
    destruct (imageFilesOf files); exact H.
  - exact H.
  - destruct H as [[Hs Hp]|[Hs Hp]]; rewrite Hs; [|right; now split].
    unfold Base64Variant.handleSubmit, Base64Variant.onSubmit_start.
    destruct (isValid _); simpl; [|left; now split].
    right. rewrite Hp.
    destruct (Base64Variant.uploadedFiles (Base64Variant.component w));
      simpl; split; eauto.
  - destruct (nth_error (Base64Variant.pending w) k) as [[data captured|]|] eqn:E;
      try exact H.
    destruct H as [[_ Hp]|[Hs [t Hp]]]; rewrite Hp in E;
      [destruct k; discriminate E|].
    destruct k as [|k]; [|destruct k; discriminate E].
    rewrite Hp. unfold Base64Variant.onSubmit_read.
    destruct (Base64Variant.imageDataOf reader captured); simpl.
    + right. split; eauto.
    + left. now split.
  - destruct (nth_error (Base64Variant.pending w) k) as [[data captured|]|] eqn:E;
      try exact H.
    destruct H as [[_ Hp]|[Hs [t Hp]]]; rewrite Hp in E;
      [destruct k; discriminate E|].
    destruct k as [|k]; [|destruct k; discriminate E].
    rewrite Hp. simpl. left.
    split; [destruct r as [|[] []]; reflexivity | reflexivity].
Qed.

Lemma base64_run_one_submission (es : list Base64Variant.Event) :
  forall w, one_submission w -> one_submission (Base64Variant.run w es).
Proof.
  unfold Base64Variant.run.
  induction es as [|e es IH]; intros w H; simpl; [exact H|].
  apply IH, base64_step_one_submission, H.
Qed.

(** X16. In the buffering variant, in every state that typing, drops,
    removals, presses of the submit button, clicks on the delete button of
    the notification and the ends of readings and requests lead to, at
    most one [onSubmit] is waiting, and one is waiting
    exactly while [isSubmitting] is on: then the button is disabled and
    reads "Submitting...", otherwise it is enabled and reads
    "Submit Story". *)
Theorem base64_one_submission_at_a_time :
  forall w : Base64Variant.World,
    Base64Variant.reachable w ->
    let s := Base64Variant.component w in
    List.length (Base64Variant.pending w) <= 1
    /\ (Base64Variant.pending w = [] ->
        Base64Variant.isSubmitting s = false
        /\ btn_disabled (base64_submitButton s) = false
        /\ btn_label (base64_submitButton s) = lit "Submit Story")
    /\ (Base64Variant.pending w <> [] ->
        Base64Variant.isSubmitting s = true
        /\ btn_disabled (base64_submitButton s) = true
        /\ btn_label (base64_submitButton s) = lit "Submitting...").
Proof.
  intros w [es <-] s. subst s.
  destruct (base64_run_one_submission es (w := Base64Variant.start))
    as [[Hs Hp]|[Hs [t Hp]]]; [left; now split| |];
    unfold base64_submitButton; rewrite Hp, Hs; simpl.
  - split; [lia|]. split; [now intros _ | intros H; now elim H].
  - split; [lia|]. split; [discriminate | now intros _].
Qed.

Lemma base64_one_submission_at_a_time_witness :
  btn_label (base64_submitButton
               (Base64Variant.component
                  (Base64Variant.run Base64Variant.start buffering_session)))
  = lit "Submit Story".
Proof.
  apply (base64_one_submission_at_a_time
           (w := Base64Variant.run Base64Variant.start buffering_session)).
  - exists buffering_session. reflexivity.
  - reflexivity.
Defined.

(** X17. Every run of [onSubmit] ends with a notification, green with the
    success message when the request was answered with a success status
    and a JSON body, red with the error message otherwise (in the
    buffering variant also when a file could not be read); no notification
    is rendered while the request is on its way. *)
Theorem submission_outcome_is_notified :
  (forall data now (s : UploadVariant.State),
      notification (UploadVariant.submitMessage
                      (UploadVariant.onSubmit_start data now s)) = None)
  /\ (forall data now r (s : UploadVariant.State),
      notification (UploadVariant.submitMessage (UploadVariant.onSubmit data now r s))
      = Some match r with
             | SubmitHttp true true => (is_success, msg_success)
             | _ => (is_danger, msg_submit_error)
             end)
  /\ (forall data now reader r (s : Base64Variant.State),
      notification (Base64Variant.submitMessage
                      (Base64Variant.onSubmit data now reader r s))
      = Some match Base64Variant.imageDataOf reader (Base64Variant.uploadedFiles s), r with
             | Some _, SubmitHttp true true => (is_success, msg_success)
             | _, _ => (is_danger, msg_submit_error)
             end).
Proof.
  split; [reflexivity|]. split.
  - intros data now r s. destruct r as [|[] []]; reflexivity.
  - intros data now reader r s.
    unfold Base64Variant.onSubmit, Base64Variant.onSubmit_start.
    destruct (Base64Variant.uploadedFiles s) as [|f l] eqn:E.
    + destruct r as [|[] []]; reflexivity.
    + unfold Base64Variant.onSubmit_read.
      destruct (Base64Variant.imageDataOf reader (f :: l));
        destruct r as [|[] []]; reflexivity.
Qed.

(** ** The texts the sanitizer leaves alone *)

Lemma subsequence_same_length (A : Type) (l l' : list A) :
  subsequence l l' -> List.length l = List.length l' -> l = l'.
Proof.
  induction 1 as [|x l l' _ IH|x l l' H _]; simpl; intros E.
  - reflexivity.
  - f_equal. apply IH. lia.
  - apply subsequence_length in H. lia.
Qed.

Lemma replace_go_length (m : matcher) (s : jsstring) (skip : nat) :
  List.length (replace_go m skip s) <= List.length s.
Proof. apply subsequence_length, replace_go_subsequence. Qed.

(** A pattern that starts with a class consumes at least one code unit;
    where it occurs, the replacement makes the text shorter. *)
Lemma replace_all_shrinks (p : codeunit -> bool) (k : matcher) (s : jsstring) :
  occurs (cls p k) s = true ->
  List.length (replace_all (cls p k) s) < List.length s.
Proof.
  unfold replace_all.
  induction s as [|c s IH]; [discriminate|].
  cbn [occurs replace_go]. unfold test.
  destruct (cls p k (c :: s)) as [n|] eqn:E.
  - intros _. unfold cls in E.
    destruct (p c); [|discriminate E].
    destruct (k s) as [n'|]; [|discriminate E].
    injection E as <-.
    pose proof (replace_go_length (cls p k) s n'). cbn. lia.
  - intros H. specialize (IH H). cbn in *. lia.
Qed.

Lemma replace_all_kept (p : codeunit -> bool) (k : matcher) (s : jsstring) :
  replace_all (cls p k) s = s -> occurs (cls p k) s = false.
Proof.
  intros E. destruct (occurs (cls p k) s) eqn:O; [|reflexivity].
  apply replace_all_shrinks in O. rewrite E in O. lia.
Qed.

Lemma sanitizeText_stages (t : jsstring) :
  let a := replace_all re_angle t in
  let b := replace_all re_javascript a in
  let c := replace_all re_handler b in
  subsequence a t /\ subsequence b a /\ subsequence c b
  /\ subsequence (trim c) c /\ sanitizeText t = trim c.
Proof.
  intros a b c. repeat split;
    first [apply replace_go_subsequence | apply trim_subsequence].
Qed.

(** A text that [sanitizeText] gives back unchanged went unchanged through
    each of its four steps. *)
Lemma sanitizeText_fixed_is_clean (t : jsstring) :
  sanitizeText t = t ->
  has_angle t = false
  /\ occurs re_javascript t = false
  /\ occurs re_handler t = false
  /\ starts_with_space t = false
  /\ ends_with_space t = false.
Proof.
  intros E.
  destruct (sanitizeText_stages t) as (Sa & Sb & Sc & Sd & Et).
  set (a := replace_all re_angle t) in *.
  set (b := replace_all re_javascript a) in *.
  set (c := replace_all re_handler b) in *.
  pose proof (subsequence_length Sa). pose proof (subsequence_length Sb).
  pose proof (subsequence_length Sc). pose proof (subsequence_length Sd).
  assert (El : List.length (trim c) = List.length t) by (rewrite <- Et; now rewrite E).
  assert (Ea : a = t) by (apply subsequence_same_length; [exact Sa | lia]).
  assert (Eb : b = a) by (apply subsequence_same_length; [exact Sb | lia]).
  assert (Ec : c = b) by (apply subsequence_same_length; [exact Sc | lia]).
  assert (Ed : trim c = c) by (apply subsequence_same_length; [exact Sd | lia]).
  assert (Jb : replace_all re_javascript t = t)
    by (unfold b in Eb; rewrite Ea in Eb; exact Eb).
  assert (Jc : replace_all re_handler t = t)
    by (unfold c in Ec; rewrite Eb, Ea in Ec; exact Ec).
  rewrite Ec, Eb, Ea in Ed.
  split.
  { apply no_angle_has_angle. rewrite <- Ea. apply replace_angle_no_angle. }
  split; [apply replace_all_kept; exact Jb|].
  split; [apply replace_all_kept; exact Jc|].
  split; [rewrite <- Ed; apply trim_head | rewrite <- Ed; apply trim_last].
Qed.

(** X6. The texts that [sanitizeText] gives back unchanged are exactly
    those without an angle bracket, without [javascript:] in any case,
    without an event-handler pattern and without white space at either
    end; every other text comes back shorter. *)
Theorem sanitizeText_keeps_exactly_clean_text :
  forall t : jsstring,
    (sanitizeText t = t
     <-> has_angle t = false
         /\ occurs re_javascript t = false
         /\ occurs re_handler t = false
         /\ starts_with_space t = false
         /\ ends_with_space t = false)
    /\ (sanitizeText t <> t -> List.length (sanitizeText t) < List.length t).
Proof.
  intros t. split; [split|].
  - apply sanitizeText_fixed_is_clean.
  - intros (Ha & Hj & Hh & Hs & He). now apply clean_text_is_kept.
  - intros Hne.
    destruct (sanitizeText_stages t) as (Sa & Sb & Sc & Sd & Et).
    assert (St : subsequence (sanitizeText t) t).
    { rewrite Et.
      eapply subsequence_trans; [exact Sd|].
      eapply subsequence_trans; [exact Sc|].
      eapply subsequence_trans; eassumption. }
    pose proof (subsequence_length St) as Hl.
    destruct (Nat.eq_dec (List.length (sanitizeText t)) (List.length t)) as [E|E];
      [|lia].
    elim Hne. now apply subsequence_same_length.
Qed.

Lemma sanitizeText_keeps_exactly_clean_text_witness :
  sanitizeText (lit "Once upon a time, on a hill = far away: javascript")
  = lit "Once upon a time, on a hill = far away: javascript"
  /\ List.length (sanitizeText (lit "money = 5")) < List.length (lit "money = 5").
Proof.
  split.
  - apply (proj1 (sanitizeText_keeps_exactly_clean_text
                    (lit "Once upon a time, on a hill = far away: javascript"))).
    repeat split.
  - apply (proj2 (sanitizeText_keeps_exactly_clean_text (lit "money = 5"))).
    discriminate.
Defined.

(** ** The pattern of the event handlers *)

Lemma canonicalize_upper (c x : codeunit) :
  is_upper x = true ->
  canonicalize c = x <-> c = x \/ c = (x + 32)%N.
Proof.
  unfold canonicalize, is_upper, is_lower, in_range. intros H.
  apply andb_true_iff in H as [H1 H2].
  apply N.leb_le in H1. apply N.leb_le in H2.
  destruct (N.leb_spec 97 c); destruct (N.leb_spec c 122); cbn [andb]; lia.
Qed.

Lemma ci_eqb_o (c : codeunit) :
  ci_eqb (cu "o") c = true <-> c = cu "o" \/ c = cu "O".
Proof.
  unfold ci_eqb. rewrite N.eqb_eq.
  change (canonicalize (cu "o")) with 79%N.
  split.
  - intros H. symmetry in H.
    apply (@canonicalize_upper c 79%N eq_refl) in H as [->| ->]; [now right | now left].
  - intros [->| ->]; reflexivity.
Qed.

Lemma ci_eqb_n (c : codeunit) :
  ci_eqb (cu "n") c = true <-> c = cu "n" \/ c = cu "N".
Proof.
  unfold ci_eqb. rewrite N.eqb_eq.
  change (canonicalize (cu "n")) with 78%N.
  split.
  - intros H. symmetry in H.
    apply (@canonicalize_upper c 78%N eq_refl) in H as [->| ->]; [now right | now left].
  - intros [->| ->]; reflexivity.
Qed.

(** X19. The pattern [/on\w+\s*=/i] matches at the start of a text exactly
    when the text begins with [on] in either case, one or more of letters,
    digits and [_], any white space, and [=]: an attribute such as
    [onclick =], and as well an ordinary word that holds [on] before an
    equals sign. *)
Theorem handler_pattern_matches_handler_shape :
  forall s : jsstring, test re_handler s = true <-> handler_shape s.
Proof.
  intros s. unfold handler_shape.
  change re_handler
    with (cls (ci_eqb (cu "o"))
            (cls (ci_eqb (cu "n"))
               (plus is_word (star is_space (cls (N.eqb (cu "=")) accept))))).
  rewrite test_cls. split.
  - intros (o & r1 & -> & Ho & H).
    apply test_cls in H as (n & r2 & -> & Hn & H).
    apply test_plus in H as (word & r3 & -> & Hw & Hwp & H).
    apply test_star in H as (space & r4 & -> & Hsp & H).
    apply test_cls in H as (e & rest & -> & He & _).
    apply N.eqb_eq in He. subst e.
    exists o, n, word, space, rest.
    split; [reflexivity|]. split; [now apply ci_eqb_o|].
    split; [now apply ci_eqb_n|]. now repeat split.
  - intros (o & n & word & space & rest & -> & Ho & Hn & Hw & Hwp & Hsp).
    exists o, (n :: word ++ space ++ cu "=" :: rest).
    split; [reflexivity|]. split; [now apply ci_eqb_o|].
    apply test_cls. exists n, (word ++ space ++ cu "=" :: rest).
    split; [reflexivity|]. split; [now apply ci_eqb_n|].
    apply test_plus. exists word, (space ++ cu "=" :: rest).
    split; [reflexivity|]. split; [exact Hw|]. split; [exact Hwp|].
    apply test_star. exists space, (cu "=" :: rest).
    split; [reflexivity|]. split; [exact Hsp|].
    apply test_cls. exists (cu "="), rest.
    split; [reflexivity|]. split; [apply N.eqb_refl | reflexivity].
Qed.

Lemma handler_pattern_matches_handler_shape_witness :
  test re_handler (lit "oney = 5") = true.
Proof.
  apply (proj2 (handler_pattern_matches_handler_shape (lit "oney = 5"))).
  exists (cu "o"), (cu "n"), (lit "ey"), (lit " "), (lit " 5").
  split; [reflexivity|]. split; [now left|]. split; [now left|].
  split; [discriminate|]. split; reflexivity.
Defined.

(** ** The previews *)

Lemma renderPreviews_None (l : list UploadVariant.Slot) :
  renderPreviews l = None <-> In UploadVariant.undefined l.
Proof.
  unfold renderPreviews. rewrite promise_all_None, in_map_iff. split.
  - intros ([|i] & H & Hin); [exact Hin | discriminate H].
  - intros Hin. exists UploadVariant.undefined. now split.
Qed.

(** X18. An upload that is answered with [success: true] but without an
    [image] puts [undefined] into the attachment list, because only [null]
    is filtered out; the previews of such a list cannot be rendered
    (reading [image.variants] throws).  When every successful answer
    carries its image and the previews could be rendered before, they can
    be rendered after the batch. *)
Theorem answer_without_image_breaks_previews :
  forall (captured : list UploadVariant.Slot)
         (answers : list UploadVariant.UploadResponse) (s : UploadVariant.State),
    let s' := UploadVariant.handleFiles_resume captured answers s in
    ((exists result,
         In (UploadVariant.UploadHttp true (Some result)) answers
         /\ UploadVariant.success result = true
         /\ UploadVariant.image result = UploadVariant.absent) ->
       In UploadVariant.undefined (UploadVariant.uploadedImages s')
       /\ renderPreviews (UploadVariant.uploadedImages s') = None)
    /\ (renderPreviews (UploadVariant.uploadedImages s) <> None ->
        (forall result,
            In (UploadVariant.UploadHttp true (Some result)) answers ->
            UploadVariant.success result = true ->
            UploadVariant.image result <> UploadVariant.absent) ->
        renderPreviews (UploadVariant.uploadedImages s') <> None).
Proof.
  intros captured answers s s'. subst s'.
  rewrite handleFiles_resume_images. split.
  - intros (result & Hin & Hok & Himg).
    assert (H : In UploadVariant.undefined
                  (UploadVariant.uploadedImages s
                   ++ map returned (filter succeeded answers))).
    { apply in_or_app. right. apply in_map_iff.
      exists (UploadVariant.UploadHttp true (Some result)).
      split; [simpl; now rewrite Himg|].
      apply filter_In. split; [exact Hin|]. simpl. now rewrite Hok, Himg. }
    split; [exact H | now apply renderPreviews_None].
  - intros Hprev Hall Hnone.
    apply renderPreviews_None in Hnone.
    apply in_app_or in Hnone as [Hin|Hin].
    + apply Hprev. now apply renderPreviews_None.
    + apply in_map_iff in Hin as (r & Hr & Hin).
      apply filter_In in Hin as [Hin Hok].
      destruct r as [|[] [result|]]; try discriminate Hok.
      simpl in Hr, Hok.
      apply andb_true_iff in Hok as [Hok Hnull].
      destruct (UploadVariant.image result) eqn:Himg;
        [|discriminate Hnull | discriminate Hr].
      now apply (Hall result Hin Hok).
Qed.

Lemma answer_without_image_breaks_previews_witness :
  renderPreviews
    (UploadVariant.uploadedImages
       (UploadVariant.handleFiles_resume [] [upload_ok "a"; upload_ok_without_image]
          UploadVariant.initial)) = None
  /\ renderPreviews
       (UploadVariant.uploadedImages
          (UploadVariant.handleFiles_resume [] [upload_ok "a"; upload_refused]
             UploadVariant.initial)) <> None.
Proof.
  split.
  - apply (proj1 (answer_without_image_breaks_previews []
                    [upload_ok "a"; upload_ok_without_image] UploadVariant.initial)).
    eexists. split; [right; left; reflexivity|]. split; reflexivity.
  - apply (proj2 (answer_without_image_breaks_previews []
                    [upload_ok "a"; upload_refused] UploadVariant.initial)).
    + discriminate.
    + intros result [H|[H|[]]] Hok; injection H as <-; discriminate.
Defined.

(** ** A second pass of the sanitizer *)

(** X20. Applying [sanitizeText] to its own result changes nothing exactly
    when the first application left neither [javascript:] nor an
    event-handler pattern in its result. *)
Theorem second_pass_is_identity_iff_first_left_nothing :
  forall t : jsstring,
    sanitizeText (sanitizeText t) = sanitizeText t
    <-> occurs re_javascript (sanitizeText t) = false
        /\ occurs re_handler (sanitizeText t) = false.
Proof.
  intros t. split.
  - intros H.
    apply sanitizeText_fixed_is_clean in H as (_ & Hj & Hh & _).
    now split.
  - intros [Hj Hh]. now apply sanitizeText_stable.
Qed.

Lemma second_pass_is_identity_iff_first_left_nothing_witness :
  sanitizeText (sanitizeText (lit " <i>hello</i> onload=x "))
  = sanitizeText (lit " <i>hello</i> onload=x ")
  /\ occurs re_javascript (sanitizeText (lit "plain text")) = false.
Proof.
  split.
  - apply (proj2 (second_pass_is_identity_iff_first_left_nothing
                    (lit " <i>hello</i> onload=x "))).
    split; reflexivity.
  - apply (proj1 (second_pass_is_identity_iff_first_left_nothing (lit "plain text"))).
    reflexivity.
Defined.

Lemma sanitizeText_only_deletes_witness :
  In (cu "A") (lit "<b>Ada</b>").
Proof.
  apply (proj2 (proj2 (sanitizeText_only_deletes (lit "<b>Ada</b>")))).
  vm_compute. auto.
Defined.

(** ** The pattern of the script protocol *)

Lemma test_lit_ci (l : jsstring) (k : matcher) (s : jsstring) :
  test (lit_ci l k) s = true
  <-> exists a b, s = a ++ b
                  /\ map canonicalize a = map canonicalize l
                  /\ test k b = true.
Proof.
  revert s. induction l as [|p l IH]; intros s; simpl lit_ci.
  - split.
    + intros H. now exists [], s.
    + intros (a & b & -> & Ha & Hb). destruct a; [exact Hb | discriminate Ha].
  - unfold chr_ci. rewrite test_cls. split.
    + intros (c & s' & -> & Hc & H).
      apply IH in H as (a & b & -> & Ha & Hb).
      exists (c :: a), b. simpl. unfold ci_eqb in Hc. apply N.eqb_eq in Hc.
      now rewrite Ha, Hc.
    + intros (a & b & -> & Ha & Hb).
      destruct a as [|c a]; [discriminate Ha|].
      simpl in Ha. injection Ha as Hc Ha.
      exists c, (a ++ b). split; [reflexivity|].
      split; [unfold ci_eqb; apply N.eqb_eq; now rewrite Hc|].
      apply IH. now exists a, b.
Qed.

(** X21. The pattern [/javascript:/i] matches at the start of a text
    exactly when the text begins with the eleven characters [javascript:],
    each letter taken in either case. *)
Theorem javascript_pattern_matches_any_case :
  forall s : jsstring,
    test re_javascript s = true
    <-> exists a b, s = a ++ b /\ map canonicalize a = lit "JAVASCRIPT:".
Proof.
  intros s. unfold re_javascript. rewrite test_lit_ci. split.
  - intros (a & b & -> & Ha & _). now exists a, b.
  - intros (a & b & -> & Ha). exists a, b. now repeat split.
Qed.

Lemma javascript_pattern_matches_any_case_witness :
  test re_javascript (lit "JaVaScRiPt:alert(1)") = true.
Proof.
  apply (proj2 (javascript_pattern_matches_any_case (lit "JaVaScRiPt:alert(1)"))).
  exists (lit "JaVaScRiPt:"), (lit "alert(1)"). split; reflexivity.
Defined.

(** ** White space around the text *)

Lemma space_not_angle (w : codeunit) : is_space w = true -> is_angle w = false.
Proof. intros H. class_cases. Qed.

Lemma space_not_word (w : codeunit) : is_space w = true -> is_word w = false.
Proof. intros H. unfold is_word, is_alpha. class_cases. Qed.

Lemma space_not_lower (w : codeunit) : is_space w = true -> is_lower w = false.
Proof. intros H. class_cases. Qed.

Lemma space_not_equals (w : codeunit) :
  is_space w = true -> (cu "=" =? w)%N = false.
Proof. intros H. class_cases. Qed.

Lemma ci_eqb_space (p w : codeunit) :
  is_space (canonicalize p) = false -> is_space w = true -> ci_eqb p w = false.
Proof.
  intros Hp Hw. unfold ci_eqb.
  unfold canonicalize at 2. rewrite (space_not_lower _ Hw).
  apply N.eqb_neq. intros E. rewrite E in Hp. congruence.
Qed.

Lemma bounded_accept : bounded accept.
Proof. intros u n [= <-]. lia. Qed.

Lemma bounded_cls (p : codeunit -> bool) (k : matcher) :
  bounded k -> bounded (cls p k).
Proof.
  intros Hk [|c u] n; simpl; [discriminate|].
  destruct (p c); [|discriminate].
  destruct (k u) as [n'|] eqn:E; simpl; [|discriminate].
  intros [= <-]. apply Hk in E. lia.
Qed.

Lemma bounded_star (p : codeunit -> bool) (k : matcher) :
  bounded k -> bounded (star p k).
Proof.
  intros Hk u. induction u as [|c u IH]; intros n; simpl; [apply Hk|].
  destruct (p c); [|apply Hk].
  destruct (star p k u) as [n'|] eqn:E; [|apply Hk].
  intros [= <-]. specialize (IH _ eq_refl). lia.
Qed.

Lemma bounded_lit_ci (l : jsstring) (k : matcher) :
  bounded k -> bounded (lit_ci l k).
Proof.
  intros Hk. induction l as [|p l IH]; simpl; [exact Hk|].
  apply bounded_cls, IH.
Qed.

Lemma its_accept : ignores_trailing_space accept.
Proof. intros u w _. reflexivity. Qed.

Lemma its_cls (p : codeunit -> bool) (k : matcher) :
  (forall w, is_space w = true -> p w = false) ->
  ignores_trailing_space k -> ignores_trailing_space (cls p k).
Proof.
  intros Hp Hk [|c u] w Hw; simpl.
  - now rewrite (Hp w Hw).
  - destruct (p c); [|reflexivity]. now rewrite (Hk u w Hw).
Qed.

Lemma its_star (p : codeunit -> bool) (k : matcher) :
  k [] = None ->
  ignores_trailing_space k -> ignores_trailing_space (star p k).
Proof.
  intros H0 Hk u w Hw. induction u as [|c u IH].
  - pose proof (Hk [] w Hw) as E. simpl in E.
    simpl. rewrite H0. rewrite E, H0. now destruct (p w).
  - pose proof (Hk (c :: u) w Hw) as E.
    change (star p k ((c :: u) ++ [w]))
      with (if p c
            then match star p k (u ++ [w]) with
                 | Some n => Some (S n)
                 | None => k ((c :: u) ++ [w])
                 end
            else k ((c :: u) ++ [w])).
    rewrite IH, E. reflexivity.
Qed.

Lemma its_lit_ci (l : jsstring) (k : matcher) :
  forallb (fun p => negb (is_space (canonicalize p))) l = true ->
  ignores_trailing_space k -> ignores_trailing_space (lit_ci l k).
Proof.
  intros Hl Hk. induction l as [|p l IH]; simpl; [exact Hk|].
  simpl in Hl. apply andb_true_iff in Hl as [Hp Hl].
  apply its_cls; [|now apply IH].
  intros w Hw. apply ci_eqb_space; [|exact Hw].
  now apply negb_true_iff.
Qed.

Lemma replace_go_trailing (m : matcher) (w : codeunit) :
  bounded m -> ignores_trailing_space m -> is_space w = true ->
  forall x skip,
    skip <= List.length x ->
    replace_go m skip (x ++ [w]) = replace_go m skip x ++ [w].
Proof.
  intros Hb Hi Hw x. induction x as [|c x IH]; intros skip Hs.
  - simpl in Hs. assert (skip = 0) by lia. subst skip.
    pose proof (Hi [] w Hw) as E. simpl in E.
    cbn [app replace_go].
    destruct (m [w]) as [[|n]|] eqn:Em; try reflexivity.
    symmetry in E. apply Hb in E. simpl in E. lia.
  - destruct skip as [|n].
    + pose proof (Hi (c :: x) w Hw) as E.
      change (replace_go m 0 ((c :: x) ++ [w]))
        with (match m ((c :: x) ++ [w]) with
              | Some (S n) => replace_go m n (x ++ [w])
              | _ => c :: replace_go m 0 (x ++ [w])
              end).
      rewrite E. cbn [replace_go].
      destruct (m (c :: x)) as [[|n]|] eqn:Em.
      * rewrite IH by lia. reflexivity.
      * apply Hb in Em. simpl in Em. apply IH. lia.
      * rewrite IH by lia. reflexivity.
    + simpl in Hs. cbn [app replace_go]. apply IH. lia.
Qed.

Lemma replace_all_trailing (m : matcher) :
  bounded m -> ignores_trailing_space m ->
  forall ws, forallb is_space ws = true ->
  forall x, replace_all m (x ++ ws) = replace_all m x ++ ws.
Proof.
  intros Hb Hi ws. induction ws as [|w ws IH]; intros H x.
  - now rewrite !app_nil_r.
  - simpl in H. apply andb_true_iff in H as [Hw Hws].
    replace (x ++ w :: ws) with ((x ++ [w]) ++ ws)
      by (rewrite <- app_assoc; reflexivity).
    rewrite (IH Hws). unfold replace_all.
    rewrite (@replace_go_trailing m w Hb Hi Hw x 0) by lia.
    rewrite <- app_assoc. reflexivity.
Qed.

Lemma replace_all_leading (p : codeunit -> bool) (k : matcher) :
  (forall w, is_space w = true -> p w = false) ->
  forall ws, forallb is_space ws = true ->
  forall x, replace_all (cls p k) (ws ++ x) = ws ++ replace_all (cls p k) x.
Proof.
  intros Hp ws. unfold replace_all.
  induction ws as [|w ws IH]; intros H x; [reflexivity|].
  simpl in H. apply andb_true_iff in H as [Hw Hws].
  cbn [app replace_go cls]. rewrite (Hp w Hw). f_equal. now apply IH.
Qed.

Lemma re_angle_bounded : bounded re_angle.
Proof. apply bounded_cls, bounded_accept. Qed.

Lemma re_angle_its : ignores_trailing_space re_angle.
Proof. apply its_cls; [exact space_not_angle | exact its_accept]. Qed.

Lemma re_javascript_bounded : bounded re_javascript.
Proof. apply bounded_lit_ci, bounded_accept. Qed.

Lemma re_javascript_its : ignores_trailing_space re_javascript.
Proof. apply its_lit_ci; [reflexivity | exact its_accept]. Qed.

Lemma re_handler_bounded : bounded re_handler.
Proof.
  apply bounded_lit_ci. unfold plus.
  apply bounded_cls, bounded_star, bounded_star, bounded_cls, bounded_accept.
Qed.

Lemma re_handler_its : ignores_trailing_space re_handler.
Proof.
  apply its_lit_ci; [reflexivity|]. unfold plus.
  apply its_cls; [exact space_not_word|].
  apply its_star; [reflexivity|].
  apply its_star; [reflexivity|].
  apply its_cls; [exact space_not_equals | exact its_accept].
Qed.

Lemma replace_all_surrounded (p : codeunit -> bool) (k : matcher)
    (ws1 x ws2 : jsstring) :
  (forall w, is_space w = true -> p w = false) ->
  bounded (cls p k) -> ignores_trailing_space (cls p k) ->
  forallb is_space ws1 = true -> forallb is_space ws2 = true ->
  replace_all (cls p k) (ws1 ++ x ++ ws2) = ws1 ++ replace_all (cls p k) x ++ ws2.
Proof.
  intros Hp Hb Hi H1 H2.
  rewrite (@replace_all_leading p k Hp ws1 H1 (x ++ ws2)).
  rewrite (@replace_all_trailing (cls p k) Hb Hi ws2 H2 x).
  reflexivity.
Qed.

Lemma re_angle_surrounded (ws1 x ws2 : jsstring) :
  forallb is_space ws1 = true -> forallb is_space ws2 = true ->
  replace_all re_angle (ws1 ++ x ++ ws2) = ws1 ++ replace_all re_angle x ++ ws2.
Proof.
  apply (@replace_all_surrounded is_angle accept);
    [exact space_not_angle | exact re_angle_bounded | exact re_angle_its].
Qed.

Lemma re_javascript_surrounded (ws1 x ws2 : jsstring) :
  forallb is_space ws1 = true -> forallb is_space ws2 = true ->
  replace_all re_javascript (ws1 ++ x ++ ws2)
  = ws1 ++ replace_all re_javascript x ++ ws2.
Proof.
  apply (@replace_all_surrounded (ci_eqb (cu "j"))
           (lit_ci (lit "avascript:") accept));
    [ intros w; now apply ci_eqb_space
    | exact re_javascript_bounded | exact re_javascript_its ].
Qed.

Lemma re_handler_surrounded (ws1 x ws2 : jsstring) :
  forallb is_space ws1 = true -> forallb is_space ws2 = true ->
  replace_all re_handler (ws1 ++ x ++ ws2) = ws1 ++ replace_all re_handler x ++ ws2.
Proof.
  apply (@replace_all_surrounded (ci_eqb (cu "o"))
           (lit_ci (lit "n")
              (plus is_word (star is_space (cls (N.eqb (cu "=")) accept)))));
    [ intros w; now apply ci_eqb_space
    | exact re_handler_bounded | exact re_handler_its ].
Qed.

(** White space around a text goes through the three replacements
    untouched and does not change what they do to the text. *)
Lemma scrub_surrounded (ws1 core ws2 : jsstring) :
  forallb is_space ws1 = true -> forallb is_space ws2 = true ->
  scrub (ws1 ++ core ++ ws2) = ws1 ++ scrub core ++ ws2.
Proof.
  intros H1 H2. unfold scrub.
  rewrite (@re_angle_surrounded ws1 core ws2 H1 H2).
  rewrite (@re_javascript_surrounded ws1 _ ws2 H1 H2).
  now rewrite (@re_handler_surrounded ws1 _ ws2 H1 H2).
Qed.

Lemma trimStart_leading (ws z : jsstring) :
  forallb is_space ws = true -> trimStart (ws ++ z) = trimStart z.
Proof.
  induction ws as [|w ws IH]; simpl; [reflexivity|].
  intros H. apply andb_true_iff in H as [Hw Hws]. rewrite Hw. auto.
Qed.

Lemma trimStart_app (y z : jsstring) :
  trimStart (y ++ z)
  = match trimStart y with
    | [] => trimStart z
    | _ :: _ => trimStart y ++ z
    end.
Proof.
  induction y as [|c y IH]; simpl; [reflexivity|].
  destruct (is_space c); [exact IH | reflexivity].
Qed.

Lemma forallb_rev (p : codeunit -> bool) (l : jsstring) :
  forallb p l = true -> forallb p (rev l) = true.
Proof.
  rewrite !forallb_forall. intros H x Hx. apply H. now apply in_rev.
Qed.

Lemma trimEnd_trailing (z ws : jsstring) :
  forallb is_space ws = true -> trimEnd (z ++ ws) = trimEnd z.
Proof.
  intros H. unfold trimEnd.
  rewrite rev_app_distr, trimStart_leading; [reflexivity|].
  now apply forallb_rev.
Qed.

Lemma trim_surrounded (ws1 y ws2 : jsstring) :
  forallb is_space ws1 = true -> forallb is_space ws2 = true ->
  trim (ws1 ++ y ++ ws2) = trim y.
Proof.
  intros H1 H2. unfold trim.
  rewrite (@trimStart_leading ws1 (y ++ ws2) H1), trimStart_app.
  destruct (trimStart y) as [|c r] eqn:E.
  - now rewrite (@trimStart_blank ws2 H2).
  - now apply trimEnd_trailing.
Qed.

Lemma sanitizeText_surrounded (ws1 core ws2 : jsstring) :
  forallb is_space ws1 = true -> forallb is_space ws2 = true ->
  sanitizeText (ws1 ++ core ++ ws2) = sanitizeText core.
Proof.
  intros H1 H2.
  change (trim (scrub (ws1 ++ core ++ ws2)) = trim (scrub core)).
  rewrite (@scrub_surrounded ws1 core ws2 H1 H2). now apply trim_surrounded.
Qed.

Lemma trimStart_split (s : jsstring) :
  exists ws, forallb is_space ws = true /\ s = ws ++ trimStart s.
Proof.
  induction s as [|c s (ws & Hws & IH)]; simpl.
  - now exists [].
  - destruct (is_space c) eqn:Hc.
    + exists (c :: ws). simpl. rewrite Hc, Hws. split; [reflexivity|]. now f_equal.
    + now exists [].
Qed.

Lemma trim_split (s : jsstring) :
  exists l r,
    forallb is_space l = true /\ forallb is_space r = true
    /\ s = l ++ trim s ++ r.
Proof.
  destruct (trimStart_split s) as (l & Hl & El).
  destruct (trimStart_split (rev (trimStart s))) as (r & Hr & Er).
  exists l, (rev r). split; [exact Hl|]. split; [now apply forallb_rev|].
  rewrite El at 1. f_equal.
  unfold trim, trimEnd. rewrite <- rev_app_distr, <- Er.
  now rewrite rev_involutive.
Qed.

Lemma sanitizeText_carries_trimmed (typed : jsstring) :
  carries_trimmed typed (sanitizeText typed).
Proof.
  split.
  - split; [|split; [apply trim_head | apply trim_last]].
    exact (trim_split (scrub typed)).
  - intros ws1 core ws2 H1 H2 ->.
    rewrite (@sanitizeText_surrounded ws1 core ws2 H1 H2).
    split; [reflexivity|].
    intros Ha Hj Hh Hs He. now apply clean_text_is_kept.
Qed.

(** C9. The name and the story that the request carries are the texts as
    typed, scrubbed, without the white space around them, in both
    variants: they are the results of [sanitizeText], which ends with
    [trim].  They have no white space at either end; white space typed
    before and behind a text does not change what is sent; and a text with
    nothing to scrub is sent exactly as typed but for that white space. *)
Theorem payload_text_trimmed :
  forall (data : FormValues UploadVariant.Slot) (data' : FormValues File)
         imgs imgs' now,
    let p := UploadVariant.sanitizedPayload data imgs now in
    let q := Base64Variant.sanitizedPayload data' imgs' now in
    (p_name p = sanitizeText (name data) /\ p_story p = sanitizeText (story data))
    /\ (p_name q = sanitizeText (name data') /\ p_story q = sanitizeText (story data'))
    /\ (starts_with_space (p_name p) = false /\ ends_with_space (p_name p) = false)
    /\ (starts_with_space (p_story p) = false /\ ends_with_space (p_story p) = false)
    /\ (starts_with_space (p_name q) = false /\ ends_with_space (p_name q) = false)
    /\ (starts_with_space (p_story q) = false /\ ends_with_space (p_story q) = false)
    /\ (trim (p_name p) = p_name p /\ trim (p_story p) = p_story p)
    /\ (trim (p_name q) = p_name q /\ trim (p_story q) = p_story q)
    /\ carries_trimmed (name data) (p_name p)
    /\ carries_trimmed (story data) (p_story p)
    /\ carries_trimmed (name data') (p_name q)
    /\ carries_trimmed (story data') (p_story q).
Proof.
  intros. subst p q. simpl.
  repeat match goal with
         | |- carries_trimmed _ _ => apply sanitizeText_carries_trimmed
         | |- _ /\ _ => split
         end;
    unfold sanitizeText;
    first [reflexivity | apply trim_head | apply trim_last | apply trim_idempotent].
Qed.

Lemma payload_text_trimmed_witness :
  p_name (UploadVariant.sanitizedPayload (padded_form _) [] sample_now)
  = lit "Ada Lovelace"
  /\ p_name (Base64Variant.sanitizedPayload (padded_form _) [] sample_now)
     = lit "Ada Lovelace".
Proof.
  pose proof (payload_text_trimmed (padded_form _) (padded_form _) [] [] sample_now)
    as (_ & _ & _ & _ & _ & _ & _ & _ & (_ & Hp) & _ & (_ & Hq) & _).
  split.
  - apply (Hp (lit "  ") (lit "Ada Lovelace") (lit " ")); reflexivity.
  - apply (Hq (lit "  ") (lit "Ada Lovelace") (lit " ")); reflexivity.
Defined.

(** ** The form after a successful submission, buffering variant *)

(** X22. In the buffering variant a submission that succeeds empties the
    attachment list and takes the value under 'images' away, but the name,
    the e-mail address and the story stay in the form as they were typed:
    [reset()] finds no [<form>] to empty the inputs.  In part_000 the same
    call leaves them blank. *)
Theorem buffering_reset_keeps_typed_text :
  forall data now reader (s : Base64Variant.State),
    Base64Variant.imageDataOf reader (Base64Variant.uploadedFiles s) <> None ->
    let s' := Base64Variant.onSubmit data now reader (SubmitHttp true true) s in
    name (Base64Variant.formValues s') = name (Base64Variant.formValues s)
    /\ email (Base64Variant.formValues s') = email (Base64Variant.formValues s)
    /\ story (Base64Variant.formValues s') = story (Base64Variant.formValues s)
    /\ images (Base64Variant.formValues s') = None
    /\ Base64Variant.uploadedFiles s' = []
    /\ Base64Variant.submitMessage s' = msg_success
    /\ (forall data0 now0 (u : UploadVariant.State),
          let u' := UploadVariant.onSubmit data0 now0 (SubmitHttp true true) u in
          name (UploadVariant.formValues u') = []
          /\ email (UploadVariant.formValues u') = []
          /\ story (UploadVariant.formValues u') = []).
Proof.
  intros data now reader s Hread.
  unfold Base64Variant.onSubmit, Base64Variant.onSubmit_start.
  destruct (Base64Variant.uploadedFiles s) as [|f l] eqn:E.
  - cbn. repeat split.
  - unfold Base64Variant.onSubmit_read.
    destruct (Base64Variant.imageDataOf reader (f :: l)); [|now elim Hread].
    cbn. repeat split.
Qed.

Lemma buffering_reset_keeps_typed_text_witness :
  name (Base64Variant.formValues
          (Base64Variant.onSubmit (sample_form _ "Ada") sample_now sample_reader
             (SubmitHttp true true) (filled_base64 "Ada")))
  = lit "Ada".
Proof.
  apply (buffering_reset_keeps_typed_text (sample_form _ "Ada") sample_now
           sample_reader (filled_base64 "Ada")).
  discriminate.
Defined.
